(** * Dapp Punks NFT: a shallow embedding of [contracts/NFT.sol]

    The contract [NFT is ERC721Enumerable, Ownable] is embedded as pure
    functions over an explicit contract state.  Solidity's [uint256] is a
    [Z] with the checked arithmetic of [pragma solidity ^0.8.0] written
    out (an overflow is a revert with [Panic(0x11)]); [address] is a [Z]
    as well.  A function that can revert returns a [Result]; the EVM rule
    that a reverted call leaves storage and balances untouched is the
    function [post].

    [NFT.sol] is embedded from its source.  The two contracts it inherits
    from ([ERC721Enumerable.sol], [Ownable.sol]) and the [Strings] library
    are not part of the sources at hand; the few members [NFT.sol] calls
    are modelled from the specification and marked as such.  Gas,
    re-entrancy through receiver hooks and the inherited transfer and
    approval entry points are outside this model. *)

From Stdlib Require Import ZArith Lia DecimalString DecimalPos DecimalN.
From stdpp Require Import gmap strings list list_numbers.

Local Open Scope Z_scope.

(** ** Machine integers and reverts *)

Abbreviation address := Z (only parsing).

Definition MAX_UINT256 : Z := 2 ^ 256 - 1.

(** The values of type [uint256]. *)
Definition is_uint256 (x : Z) : Prop := 0 <= x <= MAX_UINT256.

(** The revert reasons of [NFT.sol] and of the inherited members it calls. *)
Inductive Error : Type :=
  | MintingNotYetAllowed
  | MustMintAtLeastOne
  | InsufficientPayment
  | WouldExceedMaxSupply
  | TokenDoesNotExist
  | WithdrawalFailed
  | CallerIsNotTheOwner
  | TokenAlreadyMinted
  | OwnerIndexOutOfBounds
  | ArithmeticPanic
  | NotPayable.

(** The message each [require] of the source carries.  A function that is
    not [payable] reverts without a message when the call carries value. *)
Definition reason (e : Error) : string :=
  match e with
  | MintingNotYetAllowed => "Minting not yet allowed"
  | MustMintAtLeastOne => "Must mint at least 1 NFT"
  | InsufficientPayment => "Insufficient payment"
  | WouldExceedMaxSupply => "Would exceed max supply"
  | TokenDoesNotExist => "Token does not exist"
  | WithdrawalFailed => "Withdrawal failed"
  | CallerIsNotTheOwner => "Ownable: caller is not the owner"
  | TokenAlreadyMinted => "ERC721: token already minted"
  | OwnerIndexOutOfBounds => "ERC721Enumerable: owner index out of bounds"
  | ArithmeticPanic => "Panic(0x11)"
  | NotPayable => "(no message)"
  end.

Inductive Result (A : Type) : Type :=
  | Ok (a : A)
  | Revert (e : Error).
Arguments Ok {A} a.
Arguments Revert {A} e.

Global Instance Result_bind : MBind Result :=
  fun A B (k : A -> Result B) (c : Result A) =>
    match c with
    | Ok a => k a
    | Revert e => Revert e
    end.

Global Instance Result_ret : MRet Result := fun A a => Ok a.

Definition require (cond : bool) (e : Error) : Result unit :=
  if cond then Ok tt else Revert e.

(** Checked [uint256] arithmetic of Solidity 0.8. *)
Definition add256 (a b : Z) : Result Z :=
  if a + b <=? MAX_UINT256 then Ok (a + b) else Revert ArithmeticPanic.

Definition mul256 (a b : Z) : Result Z :=
  if a * b <=? MAX_UINT256 then Ok (a * b) else Revert ArithmeticPanic.

(** ** Strings *)
Module Strings.

(** Modelled from the spec: [Strings.toString] of the absent [Strings]
    library, the spec's [decimalStringOf]: the decimal representation of
    an unsigned integer, ["0"] for zero and no leading zeros otherwise. *)
Definition toString (value : Z) : string :=
  NilZero.string_of_uint (N.to_uint (Z.to_N value)).

(** Reading a decimal string back, used to state that [toString] is the
    decimal representation. *)
Definition parseDecimal (s : string) : option Z :=
  match NilZero.uint_of_string s with
  | Some d => Some (Z.of_N (N.of_uint d))
  | None => None
  end.

End Strings.

(** ** Contract state *)

(** The events [NFT.sol] declares.  The [Transfer] events of the inherited
    token contract are not part of the log modelled here. *)
Inductive Event : Type :=
  | Mint (amount : Z) (minter : address)
  | Withdraw (amount : Z) (owner : address).

(** Storage of the inherited token collection.
    Modelled from the spec: the state of the absent [ERC721Enumerable.sol],
    "an id->owner mapping plus an owner->ordered-id-list mapping", with
    the list of all issued ids whose length is [totalSupply]. *)
Record Collection : Type := mkCollection {
  name : string;
  symbol : string;
  _owners : gmap Z Z;
  _ownedTokens : gmap Z (list Z);
  _allTokens : list Z
}.

Record State : Type := mkState {
  token : Collection;           (* ERC721Enumerable *)
  _owner : address;             (* Ownable *)
  baseURI : string;
  baseExtension : string;
  cost : Z;
  maxSupply : Z;
  allowMintingOn : Z;
  balance : Z;                  (* address(this).balance *)
  events : list Event;          (* emitted so far, oldest first *)
  sent : list (address * Z)     (* completed outbound value transfers *)
}.

(** What a call sees of the transaction and the block. *)
Record Env : Type := mkEnv {
  msg_sender : address;
  msg_value : Z;
  block_timestamp : Z
}.

Definition set_token (c : Collection) (s : State) : State :=
  mkState c (_owner s) (baseURI s) (baseExtension s) (cost s) (maxSupply s)
    (allowMintingOn s) (balance s) (events s) (sent s).

Definition set_cost (c : Z) (s : State) : State :=
  mkState (token s) (_owner s) (baseURI s) (baseExtension s) c (maxSupply s)
    (allowMintingOn s) (balance s) (events s) (sent s).

Definition set_balance (b : Z) (s : State) : State :=
  mkState (token s) (_owner s) (baseURI s) (baseExtension s) (cost s)
    (maxSupply s) (allowMintingOn s) b (events s) (sent s).

Definition emit (e : Event) (s : State) : State :=
  mkState (token s) (_owner s) (baseURI s) (baseExtension s) (cost s)
    (maxSupply s) (allowMintingOn s) (balance s) (events s ++ [e]) (sent s).

Definition record_sent (to : address) (amount : Z) (s : State) : State :=
  mkState (token s) (_owner s) (baseURI s) (baseExtension s) (cost s)
    (maxSupply s) (allowMintingOn s) (balance s) (events s)
    (sent s ++ [(to, amount)]).

(** ** Inherited members *)
Module ERC721Enumerable.

(** Modelled from the spec: [totalSupply()] of the absent
    [ERC721Enumerable.sol], the spec's [totalIssued]: the number of tokens
    issued so far. *)
Definition totalSupply (s : State) : Z :=
  Z.of_nat (length (_allTokens (token s))).

(** Modelled from the spec: [_exists(tokenId)] of the absent [ERC721.sol]:
    the id has an owner, that is, it has been issued. *)
Definition _exists (tokenId : Z) (s : State) : bool :=
  bool_decide (is_Some (_owners (token s) !! tokenId)).

(** Modelled from the spec: [ownerOf(tokenId)] read as a partial map. *)
Definition ownerOf (tokenId : Z) (s : State) : option address :=
  _owners (token s) !! tokenId.

(** The ordered id list of an account; an account that never received a
    token has the empty list. *)
Definition ownedBy (account : address) (s : State) : list Z :=
  default [] (_ownedTokens (token s) !! account).

(** Modelled from the spec: [balanceOf(owner)] of the absent [ERC721.sol],
    the spec's "ownership-count per account". *)
Definition balanceOf (account : address) (s : State) : Z :=
  Z.of_nat (length (ownedBy account s)).

(** Modelled from the spec: [tokenOfOwnerByIndex(owner, index)] of the
    absent [ERC721Enumerable.sol]: the id at position [index] of the
    owner's enumeration, a revert when the index is out of bounds. *)
Definition tokenOfOwnerByIndex (account : address) (index : Z) (s : State)
  : Result Z :=
  require (index <? balanceOf account s) OwnerIndexOutOfBounds ;;
  match ownedBy account s !! Z.to_nat index with
  | Some tokenId => Ok tokenId
  | None => Revert OwnerIndexOutOfBounds
  end.

(** Modelled from the spec: [_safeMint(to, tokenId)] of the absent
    [ERC721.sol]: "issue a new token with [id] to [callerAccount]".  The id
    is recorded in the id->owner mapping, appended to the owner's ordered
    id list and to the list of all ids; an id is "never reused, never
    reassigned", so issuing an existing id reverts. *)
Definition _safeMint (to : address) (tokenId : Z) (s : State) : Result State :=
  require (negb (_exists tokenId s)) TokenAlreadyMinted ;;
  let c := token s in
  Ok (set_token
        (mkCollection (name c) (symbol c)
           (<[tokenId := to]> (_owners c))
           (<[to := ownedBy to s ++ [tokenId]]> (_ownedTokens c))
           (_allTokens c ++ [tokenId]))
        s).

End ERC721Enumerable.

Module Ownable.

(** Modelled from the spec: the [onlyOwner] modifier of the absent
    [Ownable.sol]: the call "fails with Unauthorized unless
    [callerAccount == ownerAccount]". *)
Definition onlyOwner (env : Env) (s : State) : Result unit :=
  require (bool_decide (_owner s = msg_sender env)) CallerIsNotTheOwner.

End Ownable.

(** ** The contract *)
Module NFT.
Import ERC721Enumerable Ownable.

(** [constructor(_name, _symbol, _cost, _maxSupply, _allowMintingOn, _baseURI)],
    deployed by [deployer], who becomes the owner; [baseExtension] is
    initialised to [".json"]. *)
Definition constructor (deployer : address) (_name _symbol : string)
    (_cost _maxSupply _allowMintingOn : Z) (_baseURI : string) : State :=
  mkState (mkCollection _name _symbol ∅ ∅ []) deployer
    _baseURI ".json" _cost _maxSupply _allowMintingOn 0 [] [].

(** The loop [for (uint256 i = 1; i <= _mintAmount; i++)
    _safeMint(msg.sender, supply + i);], entered at counter value [i] with
    [n] iterations left ([n] is [_mintAmount - i + 1], so the guard
    [i <= _mintAmount] holds exactly while [n] is positive).  Both
    [supply + i] and [i++] are checked additions. *)
Fixpoint mint_loop (to : address) (supply : Z) (n : nat) (i : Z) (s : State)
  : Result State :=
  match n with
  | O => Ok s
  | S n' =>
      tokenId ← add256 supply i;
      s' ← _safeMint to tokenId s;
      i' ← add256 i 1;
      mint_loop to supply n' i' s'
  end.

(** The same loop with its guard [i <= _mintAmount] written out, run for at
    most [fuel] evaluations of the guard; [None] when the fuel runs out.
    [mint_loop_is_mint_for] shows that [mint_loop] is this loop. *)
Fixpoint mint_for (fuel : nat) (to : address) (supply _mintAmount i : Z)
    (s : State) : option (Result State) :=
  match fuel with
  | O => None
  | S fuel' =>
      if i <=? _mintAmount then
        match add256 supply i ≫= (fun tokenId => _safeMint to tokenId s) with
        | Revert e => Some (Revert e)
        | Ok s' =>
            match add256 i 1 with
            | Revert e => Some (Revert e)
            | Ok i' => mint_for fuel' to supply _mintAmount i' s'
            end
        end
      else Some (Ok s)
  end.

(** [function mint(uint256 _mintAmount) public payable].  The value sent
    with the call is credited to the contract before the body runs. *)
Definition mint (env : Env) (_mintAmount : Z) (s : State) : Result State :=
  let s := set_balance (balance s + msg_value env) s in
  require (allowMintingOn s <=? block_timestamp env) MintingNotYetAllowed ;;
  require (0 <? _mintAmount) MustMintAtLeastOne ;;
  price ← mul256 (cost s) _mintAmount;
  require (price <=? msg_value env) InsufficientPayment ;;
  let supply := totalSupply s in
  total ← add256 supply _mintAmount;
  require (total <=? maxSupply s) WouldExceedMaxSupply ;;
  s' ← mint_loop (msg_sender env) supply (Z.to_nat _mintAmount) 1 s;
  Ok (emit (Mint _mintAmount (msg_sender env)) s').

(** [function tokenURI(uint256 _tokenId) public view returns (string memory)]. *)
Definition tokenURI (_tokenId : Z) (s : State) : Result string :=
  require (_exists _tokenId s) TokenDoesNotExist ;;
  Ok (baseURI s +:+ Strings.toString _tokenId +:+ baseExtension s).

(** The loop [for (uint256 i; i < ownerTokenCount; i++)
    tokenIds[i] = tokenOfOwnerByIndex(_owner, i);] of [walletOfOwner],
    entered at counter value [i] with [n] iterations left ([n] is
    [ownerTokenCount - i]).  [tokenIds] is a memory array, so a write at
    [i] is in bounds here; [i++] is a checked addition. *)
Fixpoint wallet_loop (account : address) (s : State) (n : nat) (i : Z)
    (tokenIds : list Z) : Result (list Z) :=
  match n with
  | O => Ok tokenIds
  | S n' =>
      tokenId ← tokenOfOwnerByIndex account i s;
      i' ← add256 i 1;
      wallet_loop account s n' i' (<[Z.to_nat i := tokenId]> tokenIds)
  end.

(** The same loop with its guard [i < ownerTokenCount] written out, run
    for at most [fuel] evaluations of the guard.  [wallet_loop_is_wallet_for]
    shows that [wallet_loop] is this loop. *)
Fixpoint wallet_for (fuel : nat) (account : address) (s : State)
    (ownerTokenCount i : Z) (tokenIds : list Z) : option (Result (list Z)) :=
  match fuel with
  | O => None
  | S fuel' =>
      if i <? ownerTokenCount then
        match tokenOfOwnerByIndex account i s with
        | Revert e => Some (Revert e)
        | Ok tokenId =>
            match add256 i 1 with
            | Revert e => Some (Revert e)
            | Ok i' =>
                wallet_for fuel' account s ownerTokenCount i'
                  (<[Z.to_nat i := tokenId]> tokenIds)
            end
        end
      else Some (Ok tokenIds)
  end.

(** [function walletOfOwner(address _owner) public view
    returns (uint256[] memory)]. *)
Definition walletOfOwner (account : address) (s : State) : Result (list Z) :=
  let ownerTokenCount := balanceOf account s in
  let tokenIds := replicate (Z.to_nat ownerTokenCount) 0 in
  wallet_loop account s (Z.to_nat ownerTokenCount) 0 tokenIds.

(** [function withdraw() public onlyOwner].  The function is not
    [payable]: a call that carries value reverts before the modifier runs.
    [accepted] is the outcome of the external call
    [payable(msg.sender).call{value: balance}("")], which the recipient
    decides. *)
Definition withdraw (env : Env) (accepted : bool) (s : State) : Result State :=
  require (msg_value env =? 0) NotPayable ;;
  onlyOwner env s ;;
  let amount := balance s in
  let s1 :=
    if accepted
    then record_sent (msg_sender env) amount (set_balance (balance s - amount) s)
    else s in
  require accepted WithdrawalFailed ;;
  Ok (emit (Withdraw amount (msg_sender env)) s1).

(** [function setCost(uint256 _newCost) public onlyOwner].  The function
    is not [payable]: a call that carries value reverts before the modifier
    runs. *)
Definition setCost (env : Env) (_newCost : Z) (s : State) : Result State :=
  require (msg_value env =? 0) NotPayable ;;
  onlyOwner env s ;;
  Ok (set_cost _newCost s).

(** *** Transactions *)

Inductive Call : Type :=
  | CallMint (env : Env) (_mintAmount : Z)
  | CallWithdraw (env : Env) (accepted : bool)
  | CallSetCost (env : Env) (_newCost : Z).

Definition execute (c : Call) (s : State) : Result State :=
  match c with
  | CallMint env _mintAmount => mint env _mintAmount s
  | CallWithdraw env accepted => withdraw env accepted s
  | CallSetCost env _newCost => setCost env _newCost s
  end.

(** The state after a call: that of the body when it returns, the state
    before the call when it reverts. *)
Definition post (r : Result State) (s : State) : State :=
  match r with
  | Ok s' => s'
  | Revert _ => s
  end.

Definition step (c : Call) (s : State) : State := post (execute c s) s.

Definition run (cs : list Call) (s : State) : State :=
  foldl (fun st c => step c st) s cs.

(** The states a deployed contract can be in: the state the constructor
    leaves, for constructor arguments of type [uint256], and every state a
    call leads to from there. *)
Inductive reachable : State -> Prop :=
  | reachable_deploy deployer _name _symbol _cost _maxSupply _allowMintingOn _baseURI :
      is_uint256 _cost -> is_uint256 _maxSupply -> is_uint256 _allowMintingOn ->
      reachable (constructor deployer _name _symbol _cost _maxSupply
                   _allowMintingOn _baseURI)
  | reachable_step c s :
      reachable s -> reachable (step c s).

End NFT.

Import ERC721Enumerable Ownable NFT.

(** ** Well-formed ledgers and the specification's reading of [mint] *)

(** The ledger invariant: the issued ids are [1 .. totalSupply] in order of
    issue, exactly these ids have an owner, the per-owner enumeration lists
    the ids an account owns, once each, the supply is within the cap and
    the cap is a [uint256]. *)
Record Inv (s : State) : Prop := mkInv {
  inv_ids : _allTokens (token s) = seqZ 1 (totalSupply s);
  inv_owned : forall id, is_Some (ownerOf id s) <-> 1 <= id <= totalSupply s;
  inv_index : forall a id, id ∈ ownedBy a s <-> ownerOf id s = Some a;
  inv_nodup : forall a, NoDup (ownedBy a s);
  inv_supply : totalSupply s <= maxSupply s;
  inv_cap : maxSupply s <= MAX_UINT256
}.

(** The precondition chain of [mint] as the specification words it, over
    unbounded integers: the error of the first failing condition, [None]
    when all four hold. *)
Definition spec_mint_error (env : Env) (quantity : Z) (s : State) : option Error :=
  if negb (allowMintingOn s <=? block_timestamp env) then Some MintingNotYetAllowed
  else if negb (1 <=? quantity) then Some MustMintAtLeastOne
  else if negb (cost s * quantity <=? msg_value env) then Some InsufficientPayment
  else if negb (totalSupply s + quantity <=? maxSupply s) then Some WouldExceedMaxSupply
  else None.

(** The state-machine view of the specification: the ledger is [PreOpen]
    at the times before [allowMintingOn] and [Open] from then on. *)
Inductive Gate : Type := PreOpen | Open.

Definition gate (s : State) (time : Z) : Gate :=
  if time <? allowMintingOn s then PreOpen else Open.

(** *** The deployment of the test suite *)

Definition deployer : address := 1.
Definition minter : address := 2.
Definition ether (n : Z) : Z := n * 10 ^ 18.
Definition COST : Z := ether 10.
Definition MAX_SUPPLY : Z := 25.
Definition ALLOW_MINTING_ON : Z := 1000.
Definition BASE_URI : string :=
  "ipfs://QmQ2jnDYecFhrf3asEWjyjZRX1pZSsNWG3qHzmNDvXa9qg/".

Definition deployed : State :=
  constructor deployer "Dapp Punks" "DP" COST MAX_SUPPLY ALLOW_MINTING_ON BASE_URI.

(** The same deployment at a unit cost of [2^255] wei. *)
Definition deployed_costly : State :=
  constructor deployer "Dapp Punks" "DP" (2 ^ 255) MAX_SUPPLY ALLOW_MINTING_ON BASE_URI.

(** The same deployment at unit cost 0 and the largest supply cap. *)
Definition deployed_free : State :=
  constructor deployer "Dapp Punks" "DP" 0 MAX_UINT256 ALLOW_MINTING_ON BASE_URI.

(** A call by [sender] carrying [value] wei in a block stamped [time]. *)
Definition call_env (sender value time : Z) : Env := mkEnv sender value time.

(** ** Bookkeeping over call sequences *)

Definition sumZ (l : list Z) : Z := foldr Z.add 0 l.

(** The wei the contract has sent out so far. *)
Definition total_sent (s : State) : Z := sumZ (snd <$> sent s).

(** The wei the calls [cs], made one after the other from [s], bring in:
    the value of every [mint] call that returns (a reverted call returns
    its value to the sender; [withdraw] and [setCost] are not payable). *)
Fixpoint received (cs : list Call) (s : State) : Z :=
  match cs with
  | [] => 0
  | c :: cs' =>
      match c, execute c s with
      | CallMint env _, Ok _ => msg_value env
      | _, _ => 0
      end + received cs' (step c s)
  end.

Definition minted_by_event (e : Event) : Z :=
  match e with
  | Mint amount _ => amount
  | Withdraw _ _ => 0
  end.

Definition withdrawn_by_event (e : Event) : Z :=
  match e with
  | Mint _ _ => 0
  | Withdraw amount _ => amount
  end.

Definition is_setCost (c : Call) : bool :=
  match c with
  | CallSetCost _ _ => true
  | _ => false
  end.

(** The value a call carries. *)
Definition call_value (c : Call) : Z :=
  match c with
  | CallMint env _ => msg_value env
  | CallWithdraw _ _ | CallSetCost _ _ => 0
  end.

(** ** The deployment script and the front end *)
Module JS.

(** [String.prototype.slice(start, end)] for integer arguments, [None]
    being an omitted [end]: a negative index counts from the end of the
    string, both indices are clamped to the string, and the result is empty
    when they cross.  A string is the sequence of its code units. *)
Definition slice (s : string) (start : Z) (end_ : option Z) : string :=
  let len := Z.of_nat (String.length s) in
  let from := if start <? 0 then Z.max (len + start) 0 else Z.min start len in
  let to :=
    match end_ with
    | None => len
    | Some e => if e <? 0 then Z.max (len + e) 0 else Z.min e len
    end in
  if to <=? from then ""
  else String.substring (Z.to_nat from) (Z.to_nat (to - from)) s.

(** [toString()] of an integer: of a [Number] holding an integer below
    [10^21] in absolute value, and of an ethers [BigNumber]: the decimal
    digits, after a minus sign for a negative integer. *)
Definition toString (n : Z) : string := NilZero.string_of_int (Z.to_int n).

End JS.

(** [truncateAddress] of [Navigation.js].  [None] stands for [null] and
    [undefined]; [!address] holds for these and for the empty string. *)
Definition truncateAddress (address : option string) : string :=
  match address with
  | None => ""
  | Some "" => ""
  | Some a => JS.slice a 0 (Some 6) +:+ "..." +:+ JS.slice a (-4) None
  end.

(** [(Date.now() + 60000).toString().slice(0, 10)] of [deploy.js], where
    [now] is the value of [Date.now()], in milliseconds. *)
Definition NFT_MINT_DATE (now : Z) : string :=
  JS.slice (JS.toString (now + 60000)) 0 (Some 10).

(** [allowMintingOn.toString() + '000'], the reveal time that
    [loadBlockchainData] stores for the countdown. *)
Definition revealTime (allowMintingOn : Z) : string :=
  JS.toString allowMintingOn +:+ "000".

(** [ownedTokenIds.map(id => id.toString())], the token ids the front end
    renders, one card per id with the id as its key. *)
Definition ownedNFTs (ownedTokenIds : list Z) : list string :=
  JS.toString <$> ownedTokenIds.

(** ** Reasoning about reverts *)

Lemma bind_Ok {A B : Type} (c : Result A) (k : A -> Result B) (b : B) :
  c ≫= k = Ok b -> exists a, c = Ok a /\ k a = Ok b.
Proof. destruct c as [a|e]; [exists a; split; [reflexivity|assumption] | discriminate]. Qed.

Lemma bind_Revert {A B : Type} (c : Result A) (k : A -> Result B) (e : Error) :
  c = Revert e -> c ≫= k = Revert e.
Proof. intros ->. reflexivity. Qed.

Lemma require_Ok (cond : bool) (e : Error) (u : unit) :
  require cond e = Ok u -> cond = true.
Proof. destruct cond; [reflexivity | discriminate]. Qed.

Lemma require_true (e : Error) : require true e = Ok tt.
Proof. reflexivity. Qed.

Lemma add256_Ok (a b r : Z) :
  add256 a b = Ok r -> r = a + b /\ a + b <= MAX_UINT256.
Proof.
  unfold add256. destruct (Z.leb_spec (a + b) MAX_UINT256); [|discriminate].
  intros [= <-]. split; [reflexivity | assumption].
Qed.

Lemma add256_fits (a b : Z) : a + b <= MAX_UINT256 -> add256 a b = Ok (a + b).
Proof. intros H. unfold add256. destruct (Z.leb_spec (a + b) MAX_UINT256); [reflexivity | lia]. Qed.

Lemma add256_overflow (a b : Z) :
  MAX_UINT256 < a + b -> add256 a b = Revert ArithmeticPanic.
Proof. intros H. unfold add256. destruct (Z.leb_spec (a + b) MAX_UINT256); [lia | reflexivity]. Qed.

Lemma add256_Revert (a b : Z) (e : Error) :
  add256 a b = Revert e -> e = ArithmeticPanic.
Proof. unfold add256. destruct (a + b <=? MAX_UINT256); [discriminate | congruence]. Qed.

Lemma mul256_Ok (a b r : Z) :
  mul256 a b = Ok r -> r = a * b /\ a * b <= MAX_UINT256.
Proof.
  unfold mul256. destruct (Z.leb_spec (a * b) MAX_UINT256); [|discriminate].
  intros [= <-]. split; [reflexivity | assumption].
Qed.

Lemma mul256_fits (a b : Z) : a * b <= MAX_UINT256 -> mul256 a b = Ok (a * b).
Proof. intros H. unfold mul256. destruct (Z.leb_spec (a * b) MAX_UINT256); [reflexivity | lia]. Qed.

Lemma mul256_overflow (a b : Z) :
  MAX_UINT256 < a * b -> mul256 a b = Revert ArithmeticPanic.
Proof. intros H. unfold mul256. destruct (Z.leb_spec (a * b) MAX_UINT256); [lia | reflexivity]. Qed.

(** Splits a hypothesis that a sequence of checks returned. *)
Ltac inv_ok :=
  repeat match goal with
    | H : _ ≫= _ = Ok _ |- _ =>
        let a := fresh "a" in
        let Ha := fresh "Ha" in
        apply bind_Ok in H as (a & Ha & H)
    | H : require _ _ = Ok _ |- _ => apply require_Ok in H
    | H : add256 _ _ = Ok _ |- _ => apply add256_Ok in H as [-> H]
    | H : mul256 _ _ = Ok _ |- _ => apply mul256_Ok in H as [-> H]
    | H : Ok _ = Ok _ |- _ => injection H as H
    end.

(** ** Issuing one token *)

Lemma safeMint_Ok (to tokenId : Z) (s s' : State) :
  _safeMint to tokenId s = Ok s' ->
  ownerOf tokenId s = None /\
  s' = set_token
         (mkCollection (name (token s)) (symbol (token s))
            (<[tokenId := to]> (_owners (token s)))
            (<[to := ownedBy to s ++ [tokenId]]> (_ownedTokens (token s)))
            (_allTokens (token s) ++ [tokenId]))
         s.
Proof.
  unfold _safeMint, _exists, ownerOf. intros H. inv_ok.
  apply negb_true_iff, bool_decide_eq_false in Ha.
  split; [|congruence].
  destruct (_owners (token s) !! tokenId) eqn:E; [|reflexivity].
  exfalso. apply Ha. eauto.
Qed.

Lemma safeMint_fresh (to tokenId : Z) (s : State) :
  ownerOf tokenId s = None -> exists s', _safeMint to tokenId s = Ok s'.
Proof.
  unfold _safeMint, _exists, ownerOf. intros H. rewrite H.
  rewrite bool_decide_eq_false_2 by (intros [? ?]; discriminate).
  eexists. reflexivity.
Qed.

Lemma safeMint_ownerOf (to tokenId : Z) (s s' : State) (id : Z) :
  _safeMint to tokenId s = Ok s' ->
  ownerOf id s' = if bool_decide (id = tokenId) then Some to else ownerOf id s.
Proof.
  intros H. apply safeMint_Ok in H as [_ ->]. unfold ownerOf. simpl.
  case_bool_decide as E.
  - subst. apply lookup_insert_eq.
  - apply lookup_insert_ne. congruence.
Qed.

Lemma safeMint_ownedBy (to tokenId : Z) (s s' : State) (a : Z) :
  _safeMint to tokenId s = Ok s' ->
  ownedBy a s' = if bool_decide (a = to) then ownedBy to s ++ [tokenId] else ownedBy a s.
Proof.
  intros H. apply safeMint_Ok in H as [_ ->]. unfold ownedBy at 1. simpl.
  case_bool_decide as E.
  - subst. rewrite lookup_insert_eq. reflexivity.
  - rewrite lookup_insert_ne by congruence. reflexivity.
Qed.

Lemma safeMint_allTokens (to tokenId : Z) (s s' : State) :
  _safeMint to tokenId s = Ok s' ->
  _allTokens (token s') = _allTokens (token s) ++ [tokenId].
Proof. intros H. apply safeMint_Ok in H as [_ ->]. reflexivity. Qed.

Lemma safeMint_frame (to tokenId : Z) (s s' : State) :
  _safeMint to tokenId s = Ok s' -> s' = set_token (token s') s.
Proof. intros H. apply safeMint_Ok in H as [_ ->]. reflexivity. Qed.

(** ** The minting loop *)

Lemma set_token_set_token (c c' : Collection) (s : State) :
  set_token c (set_token c' s) = set_token c s.
Proof. reflexivity. Qed.

Section MintLoop.

(** The recipient and the supply read before the loop. *)
Variables (to : address) (supply : Z).

Lemma mint_loop_frame (n : nat) (i : Z) (s s' : State) :
  mint_loop to supply n i s = Ok s' -> s' = set_token (token s') s.
Proof.
  revert i s. induction n as [|n IH]; intros i s H; simpl in H.
  - inv_ok. subst. destruct s' as [[]]; reflexivity.
  - inv_ok. apply IH in H. apply safeMint_frame in Ha0.
    rewrite H, Ha0. reflexivity.
Qed.

Lemma mint_loop_allTokens (n : nat) (i : Z) (s s' : State) :
  mint_loop to supply n i s = Ok s' ->
  _allTokens (token s') = _allTokens (token s) ++ seqZ (supply + i) (Z.of_nat n).
Proof.
  revert i s. induction n as [|n IH]; intros i s H; simpl in H.
  - inv_ok. subst. rewrite seqZ_nil by lia. symmetry. apply app_nil_r.
  - inv_ok. apply IH in H. apply safeMint_allTokens in Ha0.
    rewrite H, Ha0, <- app_assoc. f_equal.
    rewrite (seqZ_cons (supply + i)) by lia. simpl. do 2 f_equal; lia.
Qed.

Lemma mint_loop_ownedBy (n : nat) (i : Z) (s s' : State) (a : Z) :
  mint_loop to supply n i s = Ok s' ->
  ownedBy a s' =
    if bool_decide (a = to)
    then ownedBy to s ++ seqZ (supply + i) (Z.of_nat n)
    else ownedBy a s.
Proof.
  revert i s. induction n as [|n IH]; intros i s H; simpl in H.
  - inv_ok. subst. rewrite seqZ_nil by lia.
    case_bool_decide; [subst; symmetry; apply app_nil_r | reflexivity].
  - inv_ok. apply IH in H. rewrite H.
    pose proof (safeMint_ownedBy _ _ _ _ to Ha0) as Hto.
    pose proof (safeMint_ownedBy _ _ _ _ a Ha0) as Hown.
    rewrite bool_decide_eq_true_2 in Hto by reflexivity.
    case_bool_decide as E.
    + rewrite Hto, <- app_assoc. f_equal.
      rewrite (seqZ_cons (supply + i)) by lia. simpl. do 2 f_equal; lia.
    + exact Hown.
Qed.

Lemma mint_loop_ownerOf (n : nat) (i : Z) (s s' : State) (id : Z) :
  mint_loop to supply n i s = Ok s' ->
  ownerOf id s' =
    if bool_decide (supply + i <= id < supply + i + Z.of_nat n)
    then Some to
    else ownerOf id s.
Proof.
  revert i s. induction n as [|n IH]; intros i s H; simpl in H.
  - inv_ok. subst. rewrite bool_decide_eq_false_2 by lia. reflexivity.
  - inv_ok. apply IH in H. rewrite H.
    rewrite (safeMint_ownerOf _ _ _ _ id Ha0).
    repeat case_bool_decide; try reflexivity; lia.
Qed.

(** Every id the loop issues was unowned before the loop. *)
Lemma mint_loop_fresh (n : nat) (i : Z) (s s' : State) (id : Z) :
  mint_loop to supply n i s = Ok s' ->
  supply + i <= id < supply + i + Z.of_nat n ->
  ownerOf id s = None.
Proof.
  revert i s. induction n as [|n IH]; intros i s H Hid; simpl in H.
  - lia.
  - inv_ok. destruct (decide (id = supply + i)) as [->|Hne].
    + apply safeMint_Ok in Ha0 as [Hnone _]. exact Hnone.
    + assert (ownerOf id a0 = None) as Hnone by (apply (IH _ _ H); lia).
      rewrite (safeMint_ownerOf _ _ _ _ id Ha0) in Hnone.
      rewrite bool_decide_eq_false_2 in Hnone by assumption. exact Hnone.
Qed.

(** The loop returns when the ids are fresh and no counter overflows. *)
Lemma mint_loop_returns (n : nat) (i : Z) (s : State) :
  (forall id, supply + i <= id < supply + i + Z.of_nat n -> ownerOf id s = None) ->
  supply + i + Z.of_nat n <= MAX_UINT256 + 1 ->
  i + Z.of_nat n <= MAX_UINT256 ->
  exists s', mint_loop to supply n i s = Ok s'.
Proof.
  revert i s. induction n as [|n IH]; intros i s Hfresh Hid Hi; simpl.
  - eexists. reflexivity.
  - destruct (safeMint_fresh to (supply + i) s) as [s1 Hs1]; [apply Hfresh; lia|].
    rewrite (add256_fits supply i) by lia. cbn [mbind Result_bind]. rewrite Hs1.
    rewrite (add256_fits i 1) by lia. cbn [mbind Result_bind].
    apply IH; [|lia|lia].
    intros id Hrange. rewrite (safeMint_ownerOf _ _ _ _ id Hs1).
    rewrite bool_decide_eq_false_2 by lia. apply Hfresh. lia.
Qed.

(** [mint_loop] with [_mintAmount - i + 1] iterations is the [for] loop of
    the source entered at [i], given fuel for one more guard. *)
Lemma mint_loop_is_mint_for (_mintAmount : Z) (n fuel : nat) (i : Z) (s : State) :
  n = Z.to_nat (_mintAmount - i + 1) ->
  (n < fuel)%nat ->
  mint_for fuel to supply _mintAmount i s = Some (mint_loop to supply n i s).
Proof.
  revert fuel i s. induction n as [|n IH]; intros fuel i s Hn Hfuel;
    (destruct fuel as [|fuel]; [lia|]); simpl.
  - rewrite (proj2 (Z.leb_gt _ _)) by lia. reflexivity.
  - rewrite (proj2 (Z.leb_le _ _)) by lia.
    destruct (add256 supply i) as [tokenId|e]; cbn [mbind Result_bind];
      [|reflexivity].
    destruct (_safeMint to tokenId s) as [s1|e]; cbn [mbind Result_bind];
      [|reflexivity].
    destruct (add256 i 1) as [i'|e] eqn:Ei; cbn [mbind Result_bind];
      [|reflexivity].
    apply add256_Ok in Ei as [-> _]. apply IH; lia.
Qed.

End MintLoop.

(** [wallet_loop] with [ownerTokenCount - i] iterations is the [for] loop of
    [walletOfOwner] entered at [i]. *)
Lemma wallet_loop_is_wallet_for (account : address) (s : State)
    (ownerTokenCount : Z) (n fuel : nat) (i : Z) (tokenIds : list Z) :
  n = Z.to_nat (ownerTokenCount - i) ->
  (n < fuel)%nat ->
  wallet_for fuel account s ownerTokenCount i tokenIds
    = Some (wallet_loop account s n i tokenIds).
Proof.
  revert fuel i tokenIds. induction n as [|n IH]; intros fuel i tokenIds Hn Hfuel;
    (destruct fuel as [|fuel]; [lia|]); simpl.
  - rewrite (proj2 (Z.ltb_ge _ _)) by lia. reflexivity.
  - rewrite (proj2 (Z.ltb_lt _ _)) by lia.
    destruct (tokenOfOwnerByIndex account i s) as [tokenId|e];
      cbn [mbind Result_bind]; [|reflexivity].
    destruct (add256 i 1) as [i'|e] eqn:Ei; cbn [mbind Result_bind];
      [|reflexivity].
    apply add256_Ok in Ei as [-> _]. apply IH; lia.
Qed.

(** ** [mint] *)

Lemma totalSupply_set_balance (b : Z) (s : State) :
  totalSupply (set_balance b s) = totalSupply s.
Proof. reflexivity. Qed.

(** What a returning [mint] has checked and done. *)
Lemma mint_Ok (env : Env) (q : Z) (s s' : State) :
  mint env q s = Ok s' ->
  allowMintingOn s <= block_timestamp env /\
  0 < q /\
  cost s * q <= MAX_UINT256 /\
  cost s * q <= msg_value env /\
  totalSupply s + q <= MAX_UINT256 /\
  totalSupply s + q <= maxSupply s /\
  exists s1,
    mint_loop (msg_sender env) (totalSupply s) (Z.to_nat q) 1
      (set_balance (balance s + msg_value env) s) = Ok s1 /\
    s' = emit (Mint q (msg_sender env)) s1.
Proof.
  unfold mint. cbn [allowMintingOn cost maxSupply set_balance].
  rewrite totalSupply_set_balance. intros H.
  apply bind_Ok in H as (? & H1 & H). apply require_Ok, Z.leb_le in H1.
  apply bind_Ok in H as (? & H2 & H). apply require_Ok, Z.ltb_lt in H2.
  apply bind_Ok in H as (price & H3 & H). apply mul256_Ok in H3 as [-> H3].
  apply bind_Ok in H as (? & H4 & H). apply require_Ok, Z.leb_le in H4.
  apply bind_Ok in H as (total & H5 & H). apply add256_Ok in H5 as [-> H5].
  apply bind_Ok in H as (? & H6 & H). apply require_Ok, Z.leb_le in H6.
  apply bind_Ok in H as (s1 & H7 & H). injection H as <-.
  repeat (split; [assumption|]).
  exists s1. split; [assumption | reflexivity].
Qed.

Lemma totalSupply_allTokens (s s' : State) (l : list Z) :
  _allTokens (token s') = _allTokens (token s) ++ l ->
  totalSupply s' = totalSupply s + Z.of_nat (length l).
Proof. unfold totalSupply. intros ->. rewrite length_app. lia. Qed.

(** Everything but the token collection, the balance and the event log is
    left alone by a returning [mint]. *)
Lemma mint_frame (env : Env) (q : Z) (s s' : State) :
  mint env q s = Ok s' ->
  s' = emit (Mint q (msg_sender env))
         (set_token (token s') (set_balance (balance s + msg_value env) s)).
Proof.
  intros H. apply mint_Ok in H as (_ & _ & _ & _ & _ & _ & s1 & Hloop & ->).
  apply mint_loop_frame in Hloop. rewrite Hloop at 1. reflexivity.
Qed.

Lemma mint_allTokens (env : Env) (q : Z) (s s' : State) :
  mint env q s = Ok s' ->
  _allTokens (token s') = _allTokens (token s) ++ seqZ (totalSupply s + 1) q.
Proof.
  intros H. apply mint_Ok in H as (_ & Hq & _ & _ & _ & _ & s1 & Hloop & ->).
  apply mint_loop_allTokens in Hloop. rewrite Z2Nat.id in Hloop by lia.
  exact Hloop.
Qed.

Lemma mint_totalSupply (env : Env) (q : Z) (s s' : State) :
  mint env q s = Ok s' -> totalSupply s' = totalSupply s + q.
Proof.
  intros H. pose proof (mint_Ok _ _ _ _ H) as (_ & Hq & _).
  apply mint_allTokens in H.
  rewrite (totalSupply_allTokens _ _ _ H), length_seqZ. lia.
Qed.

Lemma mint_ownerOf (env : Env) (q : Z) (s s' : State) (id : Z) :
  mint env q s = Ok s' ->
  ownerOf id s' =
    if bool_decide (totalSupply s + 1 <= id <= totalSupply s + q)
    then Some (msg_sender env)
    else ownerOf id s.
Proof.
  intros H. apply mint_Ok in H as (_ & Hq & _ & _ & _ & _ & s1 & Hloop & ->).
  apply (mint_loop_ownerOf _ _ _ _ _ _ id) in Hloop.
  change (ownerOf id (emit (Mint q (msg_sender env)) s1)) with (ownerOf id s1).
  rewrite Hloop, Z2Nat.id by lia.
  change (ownerOf id (set_balance (balance s + msg_value env) s)) with (ownerOf id s).
  repeat case_bool_decide; try reflexivity; lia.
Qed.

Lemma mint_fresh (env : Env) (q : Z) (s s' : State) (id : Z) :
  mint env q s = Ok s' ->
  totalSupply s + 1 <= id <= totalSupply s + q ->
  ownerOf id s = None.
Proof.
  intros H Hid. apply mint_Ok in H as (_ & Hq & _ & _ & _ & _ & s1 & Hloop & ->).
  apply (mint_loop_fresh _ _ _ _ _ _ id) in Hloop; [exact Hloop|].
  rewrite Z2Nat.id by lia. lia.
Qed.

Lemma mint_ownedBy (env : Env) (q : Z) (s s' : State) (a : Z) :
  mint env q s = Ok s' ->
  ownedBy a s' =
    if bool_decide (a = msg_sender env)
    then ownedBy (msg_sender env) s ++ seqZ (totalSupply s + 1) q
    else ownedBy a s.
Proof.
  intros H. apply mint_Ok in H as (_ & Hq & _ & _ & _ & _ & s1 & Hloop & ->).
  apply (mint_loop_ownedBy _ _ _ _ _ _ a) in Hloop.
  rewrite Z2Nat.id in Hloop by lia. exact Hloop.
Qed.

(** ** The invariant holds in every reachable state *)

Lemma Inv_constructor deployer' _name _symbol _cost _maxSupply _allowMintingOn _baseURI :
  is_uint256 _maxSupply ->
  Inv (constructor deployer' _name _symbol _cost _maxSupply _allowMintingOn _baseURI).
Proof.
  intros [Hmax Hcap]. split.
  - reflexivity.
  - intros id. unfold ownerOf, totalSupply. simpl. rewrite lookup_empty.
    split; [intros [? ?]; discriminate | lia].
  - intros a id. unfold ownedBy, ownerOf. simpl. rewrite !lookup_empty. simpl.
    split; [intros H; inversion H | discriminate].
  - intros a. unfold ownedBy. simpl. rewrite lookup_empty. constructor.
  - unfold totalSupply. simpl. exact Hmax.
  - exact Hcap.
Qed.

Lemma Inv_mint (env : Env) (q : Z) (s s' : State) :
  Inv s -> mint env q s = Ok s' -> Inv s'.
Proof.
  intros [Hids Howned Hindex Hnodup Hsupply Hmax] H.
  pose proof (mint_Ok _ _ _ _ H) as (_ & Hq & _ & _ & _ & Hcap & _).
  pose proof (mint_totalSupply _ _ _ _ H) as Htotal.
  pose proof (mint_frame _ _ _ _ H) as Hframe.
  assert (0 <= totalSupply s) as Hnonneg by (unfold totalSupply; lia).
  split.
  - rewrite (mint_allTokens _ _ _ _ H), Hids, Htotal.
    rewrite seqZ_app by lia. do 2 f_equal. lia.
  - intros id. rewrite (mint_ownerOf _ _ _ _ id H), Htotal.
    case_bool_decide as E.
    + split; [lia | eauto].
    + rewrite Howned. lia.
  - intros a id.
    rewrite (mint_ownedBy _ _ _ _ a H), (mint_ownerOf _ _ _ _ id H).
    case_bool_decide as Ea; case_bool_decide as Eid.
    + subst a. split; [reflexivity|]. intros _.
      apply elem_of_app. right. apply elem_of_seqZ. lia.
    + rewrite elem_of_app, elem_of_seqZ, <- Hindex. subst a.
      split; [intros [?|?]; [assumption|lia] | auto].
    + split; [|intros [= ?]; congruence].
      intros Hin. apply Hindex in Hin.
      rewrite (mint_fresh _ _ _ _ id H) in Hin by lia. discriminate.
    + apply Hindex.
  - intros a. rewrite (mint_ownedBy _ _ _ _ a H).
    case_bool_decide as Ea; [|apply Hnodup].
    apply NoDup_app. split; [apply Hnodup|]. split; [|apply NoDup_seqZ].
    intros id Hin Hseq. apply elem_of_seqZ in Hseq.
    apply Hindex in Hin.
    rewrite (mint_fresh _ _ _ _ id H) in Hin by lia. discriminate.
  - rewrite Htotal. rewrite Hframe. simpl. exact Hcap.
  - rewrite Hframe. simpl. exact Hmax.
Qed.

(** ** The owner-only functions *)

Lemma onlyOwner_Ok (env : Env) (s : State) (u : unit) :
  onlyOwner env s = Ok u -> _owner s = msg_sender env.
Proof.
  unfold onlyOwner. intros H. apply require_Ok in H.
  apply bool_decide_eq_true in H. exact H.
Qed.

Lemma onlyOwner_owner (env : Env) (s : State) :
  msg_sender env = _owner s -> onlyOwner env s = Ok tt.
Proof.
  intros H. unfold onlyOwner. rewrite bool_decide_eq_true_2 by congruence.
  reflexivity.
Qed.

Lemma onlyOwner_other (env : Env) (s : State) :
  msg_sender env <> _owner s -> onlyOwner env s = Revert CallerIsNotTheOwner.
Proof.
  intros H. unfold onlyOwner. rewrite bool_decide_eq_false_2 by congruence.
  reflexivity.
Qed.

Lemma withdraw_Ok (env : Env) (accepted : bool) (s s' : State) :
  withdraw env accepted s = Ok s' ->
  _owner s = msg_sender env /\ accepted = true /\
  s' = emit (Withdraw (balance s) (msg_sender env))
         (record_sent (msg_sender env) (balance s)
            (set_balance (balance s - balance s) s)).
Proof.
  unfold withdraw. intros H.
  apply bind_Ok in H as (? & _ & H).
  apply bind_Ok in H as (? & Hown & H). apply onlyOwner_Ok in Hown.
  apply bind_Ok in H as (? & Hacc & H). apply require_Ok in Hacc. subst accepted.
  injection H as <-. auto.
Qed.

Lemma setCost_Ok (env : Env) (_newCost : Z) (s s' : State) :
  setCost env _newCost s = Ok s' ->
  _owner s = msg_sender env /\ s' = set_cost _newCost s.
Proof.
  unfold setCost. intros H.
  apply bind_Ok in H as (? & _ & H).
  apply bind_Ok in H as (? & Hown & H). apply onlyOwner_Ok in Hown.
  injection H as <-. auto.
Qed.

(** Neither owner-only function accepts value. *)
Lemma withdraw_not_payable (env : Env) (accepted : bool) (s : State) :
  msg_value env <> 0 -> withdraw env accepted s = Revert NotPayable.
Proof.
  intros Hval. unfold withdraw.
  rewrite (proj2 (Z.eqb_neq _ _) Hval). reflexivity.
Qed.

Lemma setCost_not_payable (env : Env) (_newCost : Z) (s : State) :
  msg_value env <> 0 -> setCost env _newCost s = Revert NotPayable.
Proof.
  intros Hval. unfold setCost.
  rewrite (proj2 (Z.eqb_neq _ _) Hval). reflexivity.
Qed.

(** Without value the functions are their modifier followed by their body. *)
Lemma withdraw_no_value (env : Env) (accepted : bool) (s : State) :
  msg_value env = 0 ->
  withdraw env accepted s =
    (onlyOwner env s ;;
     require accepted WithdrawalFailed ;;
     Ok (emit (Withdraw (balance s) (msg_sender env))
           (if accepted
            then record_sent (msg_sender env) (balance s)
                   (set_balance (balance s - balance s) s)
            else s))).
Proof. intros Hval. unfold withdraw. rewrite Hval. reflexivity. Qed.

Lemma setCost_no_value (env : Env) (_newCost : Z) (s : State) :
  msg_value env = 0 ->
  setCost env _newCost s = (onlyOwner env s ;; Ok (set_cost _newCost s)).
Proof. intros Hval. unfold setCost. rewrite Hval. reflexivity. Qed.

Lemma Inv_same_tokens (s s' : State) :
  token s' = token s -> maxSupply s' = maxSupply s -> Inv s -> Inv s'.
Proof.
  destruct s, s'. simpl. intros -> -> [H1 H2 H3 H4 H5 H6].
  split; assumption.
Qed.

Lemma Inv_step (c : Call) (s : State) : Inv s -> Inv (step c s).
Proof.
  intros HI. unfold step. destruct (execute c s) as [s'|e] eqn:E; [|exact HI].
  destruct c as [env q|env accepted|env _newCost]; simpl in *.
  - eapply Inv_mint; eassumption.
  - apply withdraw_Ok in E as (_ & _ & ->). revert HI. apply Inv_same_tokens; reflexivity.
  - apply setCost_Ok in E as (_ & ->). revert HI. apply Inv_same_tokens; reflexivity.
Qed.

Lemma reachable_Inv (s : State) : reachable s -> Inv s.
Proof.
  induction 1 as [? ? ? ? ? ? ? _ Hmax _ | c s _ IH].
  - apply Inv_constructor. exact Hmax.
  - apply Inv_step. exact IH.
Qed.

Lemma reachable_run (cs : list Call) (s : State) :
  reachable s -> reachable (run cs s).
Proof.
  revert s. induction cs as [|c cs IH]; intros s H; simpl.
  - exact H.
  - apply IH. apply reachable_step. exact H.
Qed.

(** No call changes the time gate, the supply cap or the owner. *)
Lemma step_config (c : Call) (s : State) :
  allowMintingOn (step c s) = allowMintingOn s /\
  maxSupply (step c s) = maxSupply s /\
  _owner (step c s) = _owner s.
Proof.
  unfold step. destruct (execute c s) as [s'|e] eqn:E; simpl; [|auto].
  destruct c as [env q|env accepted|env _newCost]; simpl in E.
  - apply mint_frame in E. rewrite E. simpl. auto.
  - apply withdraw_Ok in E as (_ & _ & ->). simpl. auto.
  - apply setCost_Ok in E as (_ & ->). simpl. auto.
Qed.

Lemma run_config (cs : list Call) (s : State) :
  allowMintingOn (run cs s) = allowMintingOn s /\
  maxSupply (run cs s) = maxSupply s /\
  _owner (run cs s) = _owner s.
Proof.
  revert s. induction cs as [|c cs IH]; intros s; simpl; [auto|].
  destruct (IH (step c s)) as (-> & -> & ->). apply step_config.
Qed.

(** ** The checks of [mint], one by one *)

Ltac mint_checks :=
  unfold mint; cbn [allowMintingOn cost maxSupply set_balance];
  rewrite ?totalSupply_set_balance.

Lemma mint_too_early (env : Env) (q : Z) (s : State) :
  block_timestamp env < allowMintingOn s ->
  mint env q s = Revert MintingNotYetAllowed.
Proof.
  intros Htime. mint_checks.
  rewrite (proj2 (Z.leb_gt _ _) Htime). reflexivity.
Qed.

Lemma mint_nothing (env : Env) (q : Z) (s : State) :
  allowMintingOn s <= block_timestamp env ->
  q < 1 ->
  mint env q s = Revert MustMintAtLeastOne.
Proof.
  intros Htime Hq. mint_checks.
  rewrite (proj2 (Z.leb_le _ _) Htime). cbn [require mbind Result_bind].
  rewrite (proj2 (Z.ltb_ge _ _)) by lia. reflexivity.
Qed.

Lemma mint_price_overflow (env : Env) (q : Z) (s : State) :
  allowMintingOn s <= block_timestamp env ->
  1 <= q ->
  MAX_UINT256 < cost s * q ->
  mint env q s = Revert ArithmeticPanic.
Proof.
  intros Htime Hq Hover. mint_checks.
  rewrite (proj2 (Z.leb_le _ _) Htime). cbn [require mbind Result_bind].
  rewrite (proj2 (Z.ltb_lt _ _)) by lia. cbn [require mbind Result_bind].
  rewrite (mul256_overflow (cost s) q) by exact Hover. reflexivity.
Qed.

Lemma mint_underpaid (env : Env) (q : Z) (s : State) :
  allowMintingOn s <= block_timestamp env ->
  1 <= q ->
  cost s * q <= MAX_UINT256 ->
  msg_value env < cost s * q ->
  mint env q s = Revert InsufficientPayment.
Proof.
  intros Htime Hq Hfit Hpay. mint_checks.
  rewrite (proj2 (Z.leb_le _ _) Htime). cbn [require mbind Result_bind].
  rewrite (proj2 (Z.ltb_lt _ _)) by lia. cbn [require mbind Result_bind].
  rewrite (mul256_fits (cost s) q) by exact Hfit. cbn [mbind Result_bind].
  rewrite (proj2 (Z.leb_gt _ _) Hpay). reflexivity.
Qed.

Lemma mint_supply_overflow (env : Env) (q : Z) (s : State) :
  allowMintingOn s <= block_timestamp env ->
  1 <= q ->
  cost s * q <= MAX_UINT256 ->
  cost s * q <= msg_value env ->
  MAX_UINT256 < totalSupply s + q ->
  mint env q s = Revert ArithmeticPanic.
Proof.
  intros Htime Hq Hfit Hpay Hover. mint_checks.
  rewrite (proj2 (Z.leb_le _ _) Htime). cbn [require mbind Result_bind].
  rewrite (proj2 (Z.ltb_lt _ _)) by lia. cbn [require mbind Result_bind].
  rewrite (mul256_fits (cost s) q) by exact Hfit. cbn [mbind Result_bind].
  rewrite (proj2 (Z.leb_le _ _) Hpay). cbn [require mbind Result_bind].
  rewrite (add256_overflow (totalSupply s) q) by exact Hover. reflexivity.
Qed.

Lemma mint_over_cap (env : Env) (q : Z) (s : State) :
  allowMintingOn s <= block_timestamp env ->
  1 <= q ->
  cost s * q <= MAX_UINT256 ->
  cost s * q <= msg_value env ->
  totalSupply s + q <= MAX_UINT256 ->
  maxSupply s < totalSupply s + q ->
  mint env q s = Revert WouldExceedMaxSupply.
Proof.
  intros Htime Hq Hfit Hpay Hsum Hcap. mint_checks.
  rewrite (proj2 (Z.leb_le _ _) Htime). cbn [require mbind Result_bind].
  rewrite (proj2 (Z.ltb_lt _ _)) by lia. cbn [require mbind Result_bind].
  rewrite (mul256_fits (cost s) q) by exact Hfit. cbn [mbind Result_bind].
  rewrite (proj2 (Z.leb_le _ _) Hpay). cbn [require mbind Result_bind].
  rewrite (add256_fits (totalSupply s) q) by exact Hsum. cbn [mbind Result_bind].
  rewrite (proj2 (Z.leb_gt _ _) Hcap). reflexivity.
Qed.

(** With all four checks passed on a well-formed ledger the call returns,
    unless the loop counter itself would overflow. *)
Lemma mint_returns (env : Env) (q : Z) (s : State) :
  Inv s ->
  allowMintingOn s <= block_timestamp env ->
  1 <= q ->
  cost s * q <= msg_value env ->
  msg_value env <= MAX_UINT256 ->
  totalSupply s + q <= maxSupply s ->
  q < MAX_UINT256 ->
  exists s', mint env q s = Ok s'.
Proof.
  intros HI Htime Hq Hpay Hval Hcap Hlt.
  pose proof (inv_cap _ HI) as Hmax. mint_checks.
  rewrite (proj2 (Z.leb_le _ _) Htime). cbn [require mbind Result_bind].
  rewrite (proj2 (Z.ltb_lt _ _)) by lia. cbn [require mbind Result_bind].
  rewrite (mul256_fits (cost s) q) by lia. cbn [mbind Result_bind].
  rewrite (proj2 (Z.leb_le _ _) Hpay). cbn [require mbind Result_bind].
  rewrite (add256_fits (totalSupply s) q) by lia. cbn [mbind Result_bind].
  rewrite (proj2 (Z.leb_le _ _) Hcap). cbn [require mbind Result_bind].
  destruct (mint_loop_returns (msg_sender env) (totalSupply s) (Z.to_nat q) 1
              (set_balance (balance s + msg_value env) s)) as [s1 Hs1].
  - intros id Hid. rewrite Z2Nat.id in Hid by lia.
    change (ownerOf id s = None).
    destruct (ownerOf id s) as [a|] eqn:E; [|reflexivity].
    assert (is_Some (ownerOf id s)) as Hsome by eauto.
    apply (inv_owned _ HI) in Hsome. lia.
  - rewrite Z2Nat.id by lia. lia.
  - rewrite Z2Nat.id by lia. lia.
  - rewrite Hs1. eexists. reflexivity.
Qed.

(** The loop can only revert on an id that is already issued or on an
    overflowing counter. *)
Lemma mint_loop_Revert (to supply : Z) (n : nat) (i : Z) (s : State) (e : Error) :
  mint_loop to supply n i s = Revert e ->
  e = ArithmeticPanic \/ e = TokenAlreadyMinted.
Proof.
  revert i s. induction n as [|n IH]; intros i s H; simpl in H; [discriminate|].
  destruct (add256 supply i) as [tokenId|e0] eqn:Eid; cbn [mbind Result_bind] in H.
  2: { injection H as <-. left. exact (add256_Revert _ _ _ Eid). }
  destruct (_safeMint to tokenId s) as [s1|e1] eqn:E1; cbn [mbind Result_bind] in H.
  - destruct (add256 i 1) as [i'|e2] eqn:Ei; cbn [mbind Result_bind] in H.
    + apply (IH _ _ H).
    + injection H as <-. left. exact (add256_Revert _ _ _ Ei).
  - injection H as <-. right. unfold _safeMint in E1.
    destruct (negb (_exists tokenId s)); cbn [require mbind Result_bind] in E1;
      [discriminate|].
    injection E1 as <-. reflexivity.
Qed.

(** Every revert of [mint] is that of the first check that fails. *)
Lemma mint_Revert (env : Env) (q : Z) (s : State) (e : Error) :
  mint env q s = Revert e ->
  (e = MintingNotYetAllowed /\ block_timestamp env < allowMintingOn s) \/
  (allowMintingOn s <= block_timestamp env /\
   ((e = MustMintAtLeastOne /\ q < 1) \/
    (1 <= q /\
     ((e = ArithmeticPanic /\ MAX_UINT256 < cost s * q) \/
      (e = InsufficientPayment /\ msg_value env < cost s * q) \/
      (cost s * q <= msg_value env /\
       ((e = ArithmeticPanic /\ MAX_UINT256 < totalSupply s + q) \/
        (e = WouldExceedMaxSupply /\ maxSupply s < totalSupply s + q) \/
        (totalSupply s + q <= maxSupply s /\
         (e = ArithmeticPanic \/ e = TokenAlreadyMinted)))))))).
Proof.
  intros H.
  destruct (Z.lt_ge_cases (block_timestamp env) (allowMintingOn s)) as [Ht|Ht].
  { rewrite mint_too_early in H by exact Ht. injection H as <-. auto. }
  right. split; [exact Ht|].
  destruct (Z.lt_ge_cases q 1) as [Hq|Hq].
  { rewrite mint_nothing in H by assumption. injection H as <-. auto. }
  right. split; [exact Hq|].
  destruct (Z.lt_ge_cases MAX_UINT256 (cost s * q)) as [Hmul|Hmul].
  { rewrite mint_price_overflow in H by assumption. injection H as <-. auto. }
  destruct (Z.lt_ge_cases (msg_value env) (cost s * q)) as [Hpay|Hpay].
  { rewrite mint_underpaid in H by assumption. injection H as <-. auto. }
  right. right. split; [exact Hpay|].
  destruct (Z.lt_ge_cases MAX_UINT256 (totalSupply s + q)) as [Hadd|Hadd].
  { rewrite mint_supply_overflow in H by assumption. injection H as <-. auto. }
  destruct (Z.lt_ge_cases (maxSupply s) (totalSupply s + q)) as [Hcap|Hcap].
  { rewrite mint_over_cap in H by assumption. injection H as <-. auto. }
  right. right. split; [exact Hcap|].
  revert H. mint_checks.
  rewrite (proj2 (Z.leb_le _ _) Ht). cbn [require mbind Result_bind].
  rewrite (proj2 (Z.ltb_lt _ _)) by lia. cbn [require mbind Result_bind].
  rewrite (mul256_fits (cost s) q) by exact Hmul. cbn [mbind Result_bind].
  rewrite (proj2 (Z.leb_le _ _) Hpay). cbn [require mbind Result_bind].
  rewrite (add256_fits (totalSupply s) q) by exact Hadd. cbn [mbind Result_bind].
  rewrite (proj2 (Z.leb_le _ _) Hcap). cbn [require mbind Result_bind].
  destruct (mint_loop _ _ _ _ _) as [s1|e1] eqn:El; cbn [mbind Result_bind];
    [discriminate|].
  intros [= <-]. apply (mint_loop_Revert _ _ _ _ _ _ El).
Qed.

(** ** Concrete ledgers *)

Ltac uint_range := split; apply Z.leb_le; vm_compute; reflexivity.

Lemma reachable_deployed : reachable deployed.
Proof. apply reachable_deploy; uint_range. Qed.

(** A reverted call changes nothing. *)
Lemma step_Revert (c : Call) (s : State) (e : Error) :
  execute c s = Revert e -> step c s = s.
Proof. unfold step. intros ->. reflexivity. Qed.

(** ** The supply bound *)

(** C1, as stated, fails: the claim says that every mint call whose
    quantity would push [totalSupply] past [maxSupply] fails with
    "Would exceed max supply".  On the deployment of the test suite
    (cost 10 ether, cap 25) a call for 100 tokens paying 10 ether is
    rejected by the earlier payment check, with "Insufficient payment". *)
Lemma C1_counterexample :
  reachable deployed /\
  maxSupply deployed < totalSupply deployed + 100 /\
  mint (call_env minter COST ALLOW_MINTING_ON) 100 deployed
    = Revert InsufficientPayment /\
  mint (call_env minter COST ALLOW_MINTING_ON) 100 deployed
    <> Revert WouldExceedMaxSupply.
Proof.
  split; [exact reachable_deployed|].
  split; [vm_compute; reflexivity|].
  split; [vm_compute; reflexivity | vm_compute; discriminate].
Qed.

(** C1, amended: in every reachable state, and after every further
    sequence of calls, [totalSupply] is at most [maxSupply]; a mint call
    whose quantity would push [totalSupply] past [maxSupply] always reverts
    and leaves the ledger, [totalSupply] included, as it was; the revert is
    "Would exceed max supply" when the time, quantity and payment checks
    pass and [totalSupply + quantity] fits in 256 bits. *)
Theorem C1_supply_bound (s : State) (cs : list Call) (env : Env) (q : Z) :
  reachable s ->
  totalSupply s <= maxSupply s /\
  totalSupply (run cs s) <= maxSupply s /\
  (maxSupply s < totalSupply s + q ->
     (exists e, mint env q s = Revert e) /\
     step (CallMint env q) s = s /\
     (allowMintingOn s <= block_timestamp env ->
      0 < q ->
      cost s * q <= msg_value env ->
      msg_value env <= MAX_UINT256 ->
      totalSupply s + q <= MAX_UINT256 ->
      mint env q s = Revert WouldExceedMaxSupply)).
Proof.
  intros Hr. split; [apply reachable_Inv, Hr|].
  split.
  { destruct (run_config cs s) as (_ & <- & _).
    apply reachable_Inv, reachable_run, Hr. }
  intros Hover.
  assert (exists e, mint env q s = Revert e) as [e He].
  { destruct (mint env q s) as [s'|e] eqn:E; [|eauto].
    apply mint_Ok in E as (_ & _ & _ & _ & _ & Hcap & _). lia. }
  split; [eauto|]. split; [apply (step_Revert _ _ e); exact He|].
  intros Htime Hq Hpay Hval Hfit.
  apply mint_over_cap; lia.
Qed.

Lemma C1_supply_bound_witness :
  let s := step (CallMint (call_env minter (ether 30) ALLOW_MINTING_ON) 3) deployed in
  let env := call_env minter (ether 1000) ALLOW_MINTING_ON in
  totalSupply s = 3 /\
  totalSupply s <= maxSupply s /\
  totalSupply (run [CallMint env 22] s) <= maxSupply s /\
  (exists e, mint env 100 s = Revert e) /\
  step (CallMint env 100) s = s /\
  mint env 100 s = Revert WouldExceedMaxSupply.
Proof.
  intros s env.
  assert (reachable s) as Hr by (apply reachable_step, reachable_deployed).
  destruct (C1_supply_bound s [CallMint env 22] env 100 Hr) as (H1 & H2 & H3).
  destruct H3 as (H3 & H4 & H5); [vm_compute; reflexivity|].
  split; [vm_compute; reflexivity|].
  split; [exact H1|]. split; [exact H2|]. split; [exact H3|]. split; [exact H4|].
  apply H5.
  - apply Z.leb_le; vm_compute; reflexivity.
  - vm_compute; reflexivity.
  - apply Z.leb_le; vm_compute; reflexivity.
  - apply Z.leb_le; vm_compute; reflexivity.
  - apply Z.leb_le; vm_compute; reflexivity.
Defined.

(** ** Successful mints *)

(** C2: a mint call for [q] tokens that returns appends the ids
    [totalSupply + 1 .. totalSupply + q], in this order, to the issued ids;
    each of them had no owner before and is owned by the caller after,
    every other id keeps its owner; [totalSupply] grows by [q], the
    contract balance by the payment, and the call emits [Mint(q, caller)].
    Hence the issued ids of the ledger are exactly [1 .. totalSupply], in
    order of issue. *)
Theorem C2_mint_success (env : Env) (q : Z) (s s' : State) :
  reachable s ->
  mint env q s = Ok s' ->
  _allTokens (token s') = _allTokens (token s) ++ seqZ (totalSupply s + 1) q /\
  length (seqZ (totalSupply s + 1) q) = Z.to_nat q /\
  (forall id, totalSupply s + 1 <= id <= totalSupply s + q ->
     ownerOf id s = None /\ ownerOf id s' = Some (msg_sender env)) /\
  (forall id, ~ (totalSupply s + 1 <= id <= totalSupply s + q) ->
     ownerOf id s' = ownerOf id s) /\
  totalSupply s' = totalSupply s + q /\
  balance s' = balance s + msg_value env /\
  events s' = events s ++ [Mint q (msg_sender env)] /\
  _allTokens (token s') = seqZ 1 (totalSupply s') /\
  (forall id, is_Some (ownerOf id s') <-> 1 <= id <= totalSupply s').
Proof.
  intros Hr H.
  pose proof (Inv_mint env q s s' (reachable_Inv s Hr) H) as HI.
  split; [exact (mint_allTokens _ _ _ _ H)|].
  split; [apply length_seqZ|].
  split.
  { intros id Hid. split; [exact (mint_fresh _ _ _ _ id H Hid)|].
    rewrite (mint_ownerOf _ _ _ _ id H).
    rewrite bool_decide_eq_true_2 by exact Hid. reflexivity. }
  split.
  { intros id Hid. rewrite (mint_ownerOf _ _ _ _ id H).
    rewrite bool_decide_eq_false_2 by exact Hid. reflexivity. }
  split; [exact (mint_totalSupply _ _ _ _ H)|].
  split; [rewrite (mint_frame _ _ _ _ H); reflexivity|].
  split; [rewrite (mint_frame _ _ _ _ H); reflexivity|].
  split; [apply (inv_ids _ HI) | apply (inv_owned _ HI)].
Qed.

Lemma C2_mint_success_witness :
  let env := call_env minter COST ALLOW_MINTING_ON in
  let s' := post (mint env 1 deployed) deployed in
  mint env 1 deployed = Ok s' /\
  _allTokens (token s') = [1] /\
  ownerOf 1 s' = Some minter /\
  totalSupply s' = 1 /\
  balance s' = COST /\
  events s' = [Mint 1 minter].
Proof.
  intros env s'.
  assert (mint env 1 deployed = Ok s') as H by (vm_compute; reflexivity).
  destruct (C2_mint_success env 1 deployed s' reachable_deployed H)
    as (H1 & _ & H3 & _ & H5 & H6 & H7 & _).
  split; [exact H|].
  split; [exact H1|].
  split; [apply (H3 1); vm_compute; split; discriminate|].
  split; [exact H5|]. split; [exact H6 | exact H7].
Defined.

(** ** Order of the checks and atomicity *)

Lemma reachable_deployed_costly : reachable deployed_costly.
Proof. apply reachable_deploy; uint_range. Qed.

(** C3, as stated, fails: on a ledger whose unit cost is [2^255] wei, a
    call for 2 tokens in an open block passes the time and quantity checks
    and does not pay [unitCost * quantity], so the claim's first failing
    condition is the payment one; the code reverts with the arithmetic
    panic of the checked multiplication, not with "Insufficient payment". *)
Lemma C3_counterexample :
  reachable deployed_costly /\
  spec_mint_error (call_env minter COST ALLOW_MINTING_ON) 2 deployed_costly
    = Some InsufficientPayment /\
  mint (call_env minter COST ALLOW_MINTING_ON) 2 deployed_costly
    = Revert ArithmeticPanic /\
  mint (call_env minter COST ALLOW_MINTING_ON) 2 deployed_costly
    <> Revert InsufficientPayment.
Proof.
  split; [exact reachable_deployed_costly|].
  split; [vm_compute; reflexivity|].
  split; [vm_compute; reflexivity | vm_compute; discriminate].
Qed.

(** C3, amended: the checks run in the order time, quantity, payment,
    supply, and the first one that fails decides the revert -- "Minting not
    yet allowed", "Must mint at least 1 NFT", then "Insufficient payment"
    provided [cost * quantity] fits in 256 bits, then "Would exceed max
    supply" provided [totalSupply + quantity] fits as well; a call that
    reverts, for whatever reason, leaves the whole ledger state as it was. *)
Theorem C3_precondition_order (env : Env) (q : Z) (s : State) :
  (block_timestamp env < allowMintingOn s ->
     mint env q s = Revert MintingNotYetAllowed) /\
  (allowMintingOn s <= block_timestamp env ->
   q < 1 ->
     mint env q s = Revert MustMintAtLeastOne) /\
  (allowMintingOn s <= block_timestamp env ->
   1 <= q ->
   cost s * q <= MAX_UINT256 ->
   msg_value env < cost s * q ->
     mint env q s = Revert InsufficientPayment) /\
  (allowMintingOn s <= block_timestamp env ->
   1 <= q ->
   cost s * q <= MAX_UINT256 ->
   cost s * q <= msg_value env ->
   totalSupply s + q <= MAX_UINT256 ->
   maxSupply s < totalSupply s + q ->
     mint env q s = Revert WouldExceedMaxSupply) /\
  (forall e, mint env q s = Revert e -> step (CallMint env q) s = s).
Proof.
  split; [apply mint_too_early|].
  split; [apply mint_nothing|].
  split; [apply mint_underpaid|].
  split; [apply mint_over_cap|].
  intros e He. apply (step_Revert (CallMint env q) s e). exact He.
Qed.

Lemma C3_precondition_order_witness :
  mint (call_env minter COST 999) 0 deployed = Revert MintingNotYetAllowed /\
  mint (call_env minter (ether 1) ALLOW_MINTING_ON) 0 deployed
    = Revert MustMintAtLeastOne /\
  mint (call_env minter (ether 1) ALLOW_MINTING_ON) 100 deployed
    = Revert InsufficientPayment /\
  mint (call_env minter (ether 1000) ALLOW_MINTING_ON) 100 deployed
    = Revert WouldExceedMaxSupply /\
  step (CallMint (call_env minter (ether 1000) ALLOW_MINTING_ON) 100) deployed
    = deployed.
Proof.
  split.
  { apply (C3_precondition_order (call_env minter COST 999) 0 deployed).
    vm_compute; reflexivity. }
  split.
  { apply (C3_precondition_order (call_env minter (ether 1) ALLOW_MINTING_ON) 0 deployed).
    - apply Z.leb_le; vm_compute; reflexivity.
    - vm_compute; reflexivity. }
  split.
  { apply (C3_precondition_order (call_env minter (ether 1) ALLOW_MINTING_ON) 100 deployed).
    - apply Z.leb_le; vm_compute; reflexivity.
    - apply Z.leb_le; vm_compute; reflexivity.
    - apply Z.leb_le; vm_compute; reflexivity.
    - vm_compute; reflexivity. }
  assert (mint (call_env minter (ether 1000) ALLOW_MINTING_ON) 100 deployed
          = Revert WouldExceedMaxSupply) as H.
  { apply (C3_precondition_order (call_env minter (ether 1000) ALLOW_MINTING_ON) 100 deployed).
    - apply Z.leb_le; vm_compute; reflexivity.
    - apply Z.leb_le; vm_compute; reflexivity.
    - apply Z.leb_le; vm_compute; reflexivity.
    - apply Z.leb_le; vm_compute; reflexivity.
    - apply Z.leb_le; vm_compute; reflexivity.
    - vm_compute; reflexivity. }
  split; [exact H|].
  apply (C3_precondition_order (call_env minter (ether 1000) ALLOW_MINTING_ON) 100 deployed)
    with (e := WouldExceedMaxSupply).
  exact H.
Defined.

(** Where no checked operation overflows, the code's revert is the one the
    specification's chain of preconditions names. *)
Lemma mint_refines_spec (env : Env) (q : Z) (s : State) (e : Error) :
  cost s * q <= MAX_UINT256 ->
  totalSupply s + q <= MAX_UINT256 ->
  spec_mint_error env q s = Some e ->
  mint env q s = Revert e.
Proof.
  intros Hmul Hadd. unfold spec_mint_error.
  destruct (Z.leb_spec (allowMintingOn s) (block_timestamp env)); simpl.
  2: { intros [= <-]. apply mint_too_early. assumption. }
  destruct (Z.leb_spec 1 q); simpl.
  2: { intros [= <-]. apply mint_nothing; assumption. }
  destruct (Z.leb_spec (cost s * q) (msg_value env)); simpl.
  2: { intros [= <-]. apply mint_underpaid; assumption. }
  destruct (Z.leb_spec (totalSupply s + q) (maxSupply s)); simpl.
  2: { intros [= <-]. apply mint_over_cap; assumption. }
  discriminate.
Qed.

(** The supply check has the same proviso: on a ledger with unit cost 0
    and the largest cap that has issued one token, a call for [2^256 - 1]
    tokens exceeds the cap and reverts with the arithmetic panic of
    [supply + _mintAmount]. *)
Lemma mint_supply_overflow_example :
  let s := step (CallMint (call_env minter 0 ALLOW_MINTING_ON) 1) deployed_free in
  totalSupply s = 1 /\
  spec_mint_error (call_env minter 0 ALLOW_MINTING_ON) MAX_UINT256 s
    = Some WouldExceedMaxSupply /\
  mint (call_env minter 0 ALLOW_MINTING_ON) MAX_UINT256 s = Revert ArithmeticPanic.
Proof.
  intros s. split; [vm_compute; reflexivity|].
  split; [vm_compute; reflexivity|].
  apply mint_supply_overflow.
  - apply Z.leb_le; vm_compute; reflexivity.
  - apply Z.leb_le; vm_compute; reflexivity.
  - apply Z.leb_le; vm_compute; reflexivity.
  - apply Z.leb_le; vm_compute; reflexivity.
  - vm_compute; reflexivity.
Qed.

(** ** The payment floor *)

(** C4, as stated, fails: the claim says an underpaid mint call fails with
    "Insufficient payment" regardless of time.  On the deployment of the
    test suite a call paying 1 ether for one token in a block stamped
    before [allowMintingOn] reverts with "Minting not yet allowed". *)
Lemma C4_counterexample :
  reachable deployed /\
  msg_value (call_env minter (ether 1) 999) < cost deployed * 1 /\
  mint (call_env minter (ether 1) 999) 1 deployed = Revert MintingNotYetAllowed /\
  mint (call_env minter (ether 1) 999) 1 deployed <> Revert InsufficientPayment.
Proof.
  split; [exact reachable_deployed|].
  split; [vm_compute; reflexivity|].
  split; [vm_compute; reflexivity | vm_compute; discriminate].
Qed.

(** C4, amended: a mint call paying less than [cost * quantity] always
    reverts and leaves the ledger as it was, whatever the quantity and the
    time; the revert is "Insufficient payment" whenever the block time has
    reached [allowMintingOn] and [cost * quantity] fits in 256 bits, and
    "Minting not yet allowed" before [allowMintingOn]. *)
Theorem C4_payment_floor (env : Env) (q : Z) (s : State) :
  msg_value env < cost s * q ->
  (exists e, mint env q s = Revert e) /\
  step (CallMint env q) s = s /\
  (0 <= msg_value env -> 0 <= cost s ->
   allowMintingOn s <= block_timestamp env ->
   cost s * q <= MAX_UINT256 ->
   mint env q s = Revert InsufficientPayment) /\
  (block_timestamp env < allowMintingOn s ->
   mint env q s = Revert MintingNotYetAllowed).
Proof.
  intros Hpay.
  assert (exists e, mint env q s = Revert e) as [e He].
  { destruct (mint env q s) as [s'|e] eqn:E; [|eauto].
    apply mint_Ok in E as (_ & _ & _ & Hpaid & _). lia. }
  split; [eauto|].
  split; [apply (step_Revert (CallMint env q) s e); exact He|].
  split; [|apply mint_too_early].
  intros Hval Hcost Htime Hfit.
  apply mint_underpaid; [assumption| |assumption|assumption]. nia.
Qed.

Lemma C4_payment_floor_witness :
  let env := call_env minter (ether 1) ALLOW_MINTING_ON in
  msg_value env < cost deployed * 1 /\
  (exists e, mint env 1 deployed = Revert e) /\
  step (CallMint env 1) deployed = deployed /\
  mint env 1 deployed = Revert InsufficientPayment.
Proof.
  intros env.
  assert (msg_value env < cost deployed * 1) as Hpay by (vm_compute; reflexivity).
  destruct (C4_payment_floor env 1 deployed Hpay) as (H1 & H2 & H3 & _).
  split; [exact Hpay|]. split; [exact H1|]. split; [exact H2|].
  apply H3; apply Z.leb_le; vm_compute; reflexivity.
Defined.

(** ** Checked multiplication in the payment check *)

(** C10: when [cost * quantity] exceeds [2^256 - 1] the call reverts and
    changes nothing (with the arithmetic panic, once the time and quantity
    checks have passed); so a mint call that returns has paid at least
    [cost * quantity], computed over the unbounded integers. *)
Theorem C10_no_payment_wraparound (env : Env) (q : Z) (s : State) :
  (MAX_UINT256 < cost s * q ->
     (exists e, mint env q s = Revert e) /\
     step (CallMint env q) s = s /\
     totalSupply (step (CallMint env q) s) = totalSupply s /\
     (allowMintingOn s <= block_timestamp env -> 1 <= q ->
      mint env q s = Revert ArithmeticPanic)) /\
  (forall s', mint env q s = Ok s' ->
     cost s * q <= msg_value env /\ cost s * q <= MAX_UINT256).
Proof.
  split.
  - intros Hover.
    assert (exists e, mint env q s = Revert e) as [e He].
    { destruct (mint env q s) as [s'|e] eqn:E; [|eauto].
      apply mint_Ok in E as (_ & _ & Hfit & _). lia. }
    pose proof (step_Revert (CallMint env q) s e He) as Hstep.
    split; [eauto|]. split; [exact Hstep|]. split; [rewrite Hstep; reflexivity|].
    intros Htime Hq. apply mint_price_overflow; assumption.
  - intros s' H. apply mint_Ok in H as (_ & _ & Hfit & Hpaid & _). auto.
Qed.

Lemma C10_no_payment_wraparound_witness :
  let env := call_env minter 0 ALLOW_MINTING_ON in
  MAX_UINT256 < cost deployed_costly * 2 /\
  (cost deployed_costly * 2) mod 2 ^ 256 = 0 /\
  mint env 2 deployed_costly = Revert ArithmeticPanic /\
  step (CallMint env 2) deployed_costly = deployed_costly /\
  cost deployed * 3 <= msg_value (call_env minter (ether 30) ALLOW_MINTING_ON).
Proof.
  intros env.
  assert (MAX_UINT256 < cost deployed_costly * 2) as Hover by (vm_compute; reflexivity).
  destruct (C10_no_payment_wraparound env 2 deployed_costly) as (H1 & _).
  destruct (H1 Hover) as (_ & H2 & _ & H3).
  split; [exact Hover|]. split; [vm_compute; reflexivity|].
  split; [apply H3; apply Z.leb_le; vm_compute; reflexivity|].
  split; [exact H2|].
  destruct (C10_no_payment_wraparound
              (call_env minter (ether 30) ALLOW_MINTING_ON) 3 deployed) as (_ & H4).
  apply (H4 (post (mint (call_env minter (ether 30) ALLOW_MINTING_ON) 3 deployed) deployed)).
  vm_compute; reflexivity.
Defined.

(** ** Token metadata *)

(** [toString] is the decimal representation: reading it back gives the
    number. *)
Lemma toString_parseDecimal (value : Z) :
  0 <= value -> Strings.parseDecimal (Strings.toString value) = Some value.
Proof.
  intros Hv. unfold Strings.parseDecimal, Strings.toString.
  rewrite NilZero.usu.
  - rewrite DecimalN.Unsigned.of_to, Z2N.id by exact Hv. reflexivity.
  - destruct (Z.to_N value) as [|p]; simpl.
    + discriminate.
    + apply DecimalPos.Unsigned.to_uint_nonnil.
Qed.

Lemma tokenURI_cases (_tokenId : Z) (s : State) :
  tokenURI _tokenId s =
    if _exists _tokenId s
    then Ok (baseURI s +:+ Strings.toString _tokenId +:+ baseExtension s)
    else Revert TokenDoesNotExist.
Proof. unfold tokenURI. destruct (_exists _tokenId s); reflexivity. Qed.

Lemma exists_issued (s : State) (id : Z) :
  Inv s -> _exists id s = true <-> 1 <= id <= totalSupply s.
Proof.
  intros HI. unfold _exists. rewrite bool_decide_eq_true.
  apply (inv_owned _ HI).
Qed.

(** C5: in every reachable state [tokenURI(id)] reverts with "Token does
    not exist" exactly when [id < 1] or [id > totalSupply], which is
    exactly when the id has no owner (was never issued); for every other
    id it returns [baseURI] followed by the decimal representation of the
    id and by [baseExtension].  It is a function of the state to a value:
    it has no effect on the state. *)
Theorem C5_tokenURI (s : State) (id : Z) :
  reachable s ->
  (tokenURI id s = Revert TokenDoesNotExist <-> id < 1 \/ totalSupply s < id) /\
  (ownerOf id s = None <-> id < 1 \/ totalSupply s < id) /\
  (1 <= id <= totalSupply s ->
     tokenURI id s
       = Ok (baseURI s +:+ Strings.toString id +:+ baseExtension s) /\
     Strings.parseDecimal (Strings.toString id) = Some id).
Proof.
  intros Hr. pose proof (reachable_Inv s Hr) as HI.
  rewrite tokenURI_cases.
  split; [|split].
  - destruct (_exists id s) eqn:E.
    + split; [discriminate|]. intros Hout.
      apply (exists_issued s id HI) in E. lia.
    + split; [|reflexivity]. intros _.
      destruct (decide (1 <= id <= totalSupply s)) as [Hin|Hout]; [|lia].
      apply (exists_issued s id HI) in Hin. congruence.
  - pose proof (inv_owned _ HI id) as Howned.
    destruct (ownerOf id s) as [a|] eqn:E.
    + split; [discriminate|]. intros Hout.
      assert (1 <= id <= totalSupply s) by (apply Howned; eauto). lia.
    + split; [|reflexivity]. intros _.
      destruct (decide (1 <= id <= totalSupply s)) as [Hin|Hout]; [|lia].
      apply Howned in Hin. destruct Hin as [? ?]. discriminate.
  - intros Hin. split; [|apply toString_parseDecimal; lia].
    rewrite (proj2 (exists_issued s id HI) Hin). reflexivity.
Qed.

Lemma C5_tokenURI_witness :
  let s := step (CallMint (call_env minter COST ALLOW_MINTING_ON) 1) deployed in
  tokenURI 1 s
    = Ok "ipfs://QmQ2jnDYecFhrf3asEWjyjZRX1pZSsNWG3qHzmNDvXa9qg/1.json" /\
  tokenURI 99 s = Revert TokenDoesNotExist /\
  tokenURI 0 s = Revert TokenDoesNotExist.
Proof.
  intros s.
  assert (reachable s) as Hr by (apply reachable_step, reachable_deployed).
  split.
  { destruct (C5_tokenURI s 1 Hr) as (_ & _ & H).
    destruct H as [H _]; [vm_compute; split; discriminate|]. exact H. }
  split.
  { apply (C5_tokenURI s 99 Hr). right. vm_compute; reflexivity. }
  apply (C5_tokenURI s 0 Hr). left. vm_compute; reflexivity.
Defined.

(** ** Withdrawal and the unit cost *)

(** C6: a [withdraw] call, which carries no value, reverts with "Ownable:
    caller is not the owner" for any caller but the owner.  Called by the
    owner with the transfer accepted, it sends the whole contract balance
    to the owner, leaves the contract balance at 0 and emits
    [Withdraw(amount, owner)], touching nothing else; with the transfer
    rejected it reverts with "Withdrawal failed" and the balance is what it
    was. *)
Theorem C6_withdraw (env : Env) (accepted : bool) (s : State) :
  msg_value env = 0 ->
  (msg_sender env <> _owner s ->
     withdraw env accepted s = Revert CallerIsNotTheOwner) /\
  (msg_sender env = _owner s -> accepted = true ->
     exists s',
       withdraw env accepted s = Ok s' /\
       balance s' = 0 /\
       sent s' = sent s ++ [(_owner s, balance s)] /\
       events s' = events s ++ [Withdraw (balance s) (_owner s)] /\
       token s' = token s /\ cost s' = cost s /\ _owner s' = _owner s) /\
  (msg_sender env = _owner s -> accepted = false ->
     withdraw env accepted s = Revert WithdrawalFailed /\
     step (CallWithdraw env accepted) s = s /\
     balance (step (CallWithdraw env accepted) s) = balance s) /\
  (forall s', withdraw env accepted s = Ok s' ->
     msg_sender env = _owner s /\ accepted = true).
Proof.
  intros Hval. split; [|split; [|split]].
  - intros Hne. rewrite (withdraw_no_value env accepted s Hval).
    rewrite onlyOwner_other by exact Hne. reflexivity.
  - intros Heq ->. rewrite (withdraw_no_value env true s Hval).
    rewrite onlyOwner_owner by exact Heq.
    eexists. split; [reflexivity|]. simpl. rewrite Heq.
    repeat split; try reflexivity. lia.
  - intros Heq ->.
    assert (withdraw env false s = Revert WithdrawalFailed) as H.
    { rewrite (withdraw_no_value env false s Hval).
      rewrite onlyOwner_owner by exact Heq. reflexivity. }
    pose proof (step_Revert (CallWithdraw env false) s _ H) as Hstep.
    split; [exact H|]. split; [exact Hstep|]. rewrite Hstep. reflexivity.
  - intros s' H. apply withdraw_Ok in H as (Hown & Hacc & _). auto.
Qed.

Lemma C6_withdraw_witness :
  let s := step (CallMint (call_env minter COST ALLOW_MINTING_ON) 1) deployed in
  withdraw (call_env minter 0 ALLOW_MINTING_ON) true s = Revert CallerIsNotTheOwner /\
  (exists s',
     withdraw (call_env deployer 0 ALLOW_MINTING_ON) true s = Ok s' /\
     balance s' = 0 /\
     sent s' = [(deployer, COST)] /\
     events s' = [Mint 1 minter; Withdraw COST deployer]) /\
  withdraw (call_env deployer 0 ALLOW_MINTING_ON) false s = Revert WithdrawalFailed /\
  balance (step (CallWithdraw (call_env deployer 0 ALLOW_MINTING_ON) false) s) = COST.
Proof.
  intros s.
  split.
  { apply (C6_withdraw (call_env minter 0 ALLOW_MINTING_ON) true s eq_refl).
    vm_compute; discriminate. }
  split.
  { destruct (C6_withdraw (call_env deployer 0 ALLOW_MINTING_ON) true s eq_refl)
      as (_ & H & _).
    destruct H as (s' & H1 & H2 & H3 & H4 & _); [reflexivity | reflexivity|].
    exists s'. split; [exact H1|]. split; [exact H2|].
    split; [exact H3 | exact H4]. }
  destruct (C6_withdraw (call_env deployer 0 ALLOW_MINTING_ON) false s eq_refl)
    as (_ & _ & H & _).
  destruct H as (H1 & _ & H3); [reflexivity | reflexivity|].
  split; [exact H1 | exact H3].
Defined.

(** C7: a [setCost] call, which carries no value, by any caller but the
    owner reverts with "Ownable: caller is not the owner" and the cost
    stays what it was, as the balance does when such a caller tries
    [withdraw]; by the owner it stores the new cost, whatever its value. *)
Theorem C7_setCost (env : Env) (_newCost : Z) (accepted : bool) (s : State) :
  msg_value env = 0 ->
  (msg_sender env <> _owner s ->
     setCost env _newCost s = Revert CallerIsNotTheOwner /\
     cost (step (CallSetCost env _newCost) s) = cost s /\
     withdraw env accepted s = Revert CallerIsNotTheOwner /\
     balance (step (CallWithdraw env accepted) s) = balance s) /\
  (msg_sender env = _owner s ->
     setCost env _newCost s = Ok (set_cost _newCost s) /\
     cost (step (CallSetCost env _newCost) s) = _newCost).
Proof.
  intros Hval. split.
  - intros Hne.
    assert (setCost env _newCost s = Revert CallerIsNotTheOwner) as H1.
    { rewrite setCost_no_value by exact Hval.
      rewrite onlyOwner_other by exact Hne. reflexivity. }
    assert (withdraw env accepted s = Revert CallerIsNotTheOwner) as H2.
    { rewrite withdraw_no_value by exact Hval.
      rewrite onlyOwner_other by exact Hne. reflexivity. }
    split; [exact H1|].
    split; [rewrite (step_Revert (CallSetCost env _newCost) s _ H1); reflexivity|].
    split; [exact H2|].
    rewrite (step_Revert (CallWithdraw env accepted) s _ H2). reflexivity.
  - intros Heq.
    assert (setCost env _newCost s = Ok (set_cost _newCost s)) as H.
    { rewrite setCost_no_value by exact Hval.
      rewrite onlyOwner_owner by exact Heq. reflexivity. }
    split; [exact H|]. unfold step. simpl. rewrite H. reflexivity.
Qed.

Lemma C7_setCost_witness :
  setCost (call_env minter 0 ALLOW_MINTING_ON) 0 deployed = Revert CallerIsNotTheOwner /\
  cost (step (CallSetCost (call_env minter 0 ALLOW_MINTING_ON) 0) deployed) = COST /\
  cost (step (CallSetCost (call_env deployer 0 ALLOW_MINTING_ON) 0) deployed) = 0.
Proof.
  destruct (C7_setCost (call_env minter 0 ALLOW_MINTING_ON) 0 true deployed eq_refl)
    as (H & _).
  destruct H as (H1 & H2 & _); [vm_compute; discriminate|].
  split; [exact H1|]. split; [exact H2|].
  apply (C7_setCost (call_env deployer 0 ALLOW_MINTING_ON) 0 true deployed eq_refl).
  reflexivity.
Defined.

(** ** The time gate *)

Lemma gate_Open (s : State) (time : Z) :
  gate s time = Open <-> allowMintingOn s <= time.
Proof.
  unfold gate. destruct (Z.ltb_spec time (allowMintingOn s)).
  - split; [discriminate | lia].
  - split; [intros _; assumption | reflexivity].
Qed.

Lemma gate_PreOpen (s : State) (time : Z) :
  gate s time = PreOpen <-> time < allowMintingOn s.
Proof.
  unfold gate. destruct (Z.ltb_spec time (allowMintingOn s)).
  - split; [intros _; assumption | reflexivity].
  - split; [discriminate | lia].
Qed.

(** C8: while the gate is [PreOpen] every mint call reverts with "Minting
    not yet allowed"; the gate is a function of the time and of
    [allowMintingOn] alone, no sequence of calls changes [allowMintingOn],
    and so a gate that is [Open] at some time is [Open] at every later time
    after any calls; in particular once a mint call has returned, no mint
    call at the same or a later time can revert with "Minting not yet
    allowed". *)
Theorem C8_time_gate (s : State) (cs : list Call) (env env' : Env) (q q' : Z) :
  block_timestamp env <= block_timestamp env' ->
  (gate s (block_timestamp env) = PreOpen ->
     mint env q s = Revert MintingNotYetAllowed) /\
  allowMintingOn (run cs s) = allowMintingOn s /\
  (gate s (block_timestamp env) = Open ->
     gate (run cs s) (block_timestamp env') = Open) /\
  (forall s1, mint env q s = Ok s1 ->
     gate s (block_timestamp env) = Open /\
     gate (run cs s1) (block_timestamp env') = Open /\
     mint env' q' (run cs s1) <> Revert MintingNotYetAllowed).
Proof.
  intros Hlater.
  destruct (run_config cs s) as (Hallow & _ & _).
  split; [intros Hpre; apply mint_too_early, gate_PreOpen, Hpre|].
  split; [exact Hallow|].
  split.
  { intros Hopen. apply gate_Open in Hopen. apply gate_Open. lia. }
  intros s1 H.
  pose proof (mint_Ok _ _ _ _ H) as (Htime & _).
  assert (allowMintingOn (run cs s1) = allowMintingOn s) as Hsame.
  { destruct (run_config cs s1) as (-> & _ & _).
    rewrite (mint_frame _ _ _ _ H). reflexivity. }
  split; [apply gate_Open; exact Htime|].
  split; [apply gate_Open; lia|].
  intros Hrev. apply mint_Revert in Hrev as [[_ Hearly] | [_ Hrest]].
  - lia.
  - destruct Hrest as [[? _] | (_ & [[? _] | [[? _] | (_ & [[? _] | [[? _] | (_ & [?|?])]])]])];
      discriminate.
Qed.

Lemma C8_time_gate_witness :
  let early := call_env minter COST 999 in
  let env := call_env minter COST ALLOW_MINTING_ON in
  let env' := call_env minter COST 2000 in
  let s1 := post (mint env 1 deployed) deployed in
  let cs := [CallSetCost (call_env deployer 0 1500) 5;
             CallWithdraw (call_env deployer 0 1600) true] in
  mint early 1 deployed = Revert MintingNotYetAllowed /\
  gate (run cs s1) 2000 = Open /\
  mint env' 1 (run cs s1) <> Revert MintingNotYetAllowed.
Proof.
  intros early env env' s1 cs.
  split.
  { apply (C8_time_gate deployed cs early env' 1 1).
    - apply Z.leb_le; vm_compute; reflexivity.
    - vm_compute; reflexivity. }
  destruct (C8_time_gate deployed cs env env' 1 1) as (_ & _ & _ & H).
  { apply Z.leb_le; vm_compute; reflexivity. }
  destruct (H s1) as (_ & H2 & H3); [vm_compute; reflexivity|].
  split; [exact H2 | exact H3].
Defined.

(** ** Enumerating an owner's tokens *)

Lemma tokenOfOwnerByIndex_lookup (account : Z) (s : State) (k : nat) (id : Z) :
  ownedBy account s !! k = Some id ->
  tokenOfOwnerByIndex account (Z.of_nat k) s = Ok id.
Proof.
  intros Hk. unfold tokenOfOwnerByIndex, balanceOf.
  pose proof (lookup_lt_Some _ _ _ Hk) as Hlt.
  rewrite (proj2 (Z.ltb_lt _ _)) by lia. cbn [require mbind Result_bind].
  rewrite Nat2Z.id, Hk. reflexivity.
Qed.

(** The loop of [walletOfOwner] started at index [k], with the first [k]
    cells already filled, returns the owner's enumeration. *)
Lemma wallet_loop_fills (account : Z) (s : State) (n k : nat) (tokenIds : list Z) :
  Z.of_nat (length (ownedBy account s)) <= MAX_UINT256 ->
  length tokenIds = length (ownedBy account s) ->
  (k + n)%nat = length (ownedBy account s) ->
  take k tokenIds = take k (ownedBy account s) ->
  wallet_loop account s n (Z.of_nat k) tokenIds = Ok (ownedBy account s).
Proof.
  intros Hmax. revert k tokenIds.
  induction n as [|n IH]; intros k tokenIds Hlen Hk Htake; simpl.
  - rewrite !take_ge in Htake by lia. congruence.
  - destruct (lookup_lt_is_Some_2 (ownedBy account s) k) as [id Hid]; [lia|].
    rewrite (tokenOfOwnerByIndex_lookup _ _ _ _ Hid). cbn [mbind Result_bind].
    rewrite (add256_fits (Z.of_nat k) 1) by lia. cbn [mbind Result_bind].
    rewrite Nat2Z.id.
    replace (Z.of_nat k + 1) with (Z.of_nat (S k)) by lia.
    apply IH.
    + rewrite length_insert. exact Hlen.
    + lia.
    + rewrite (take_S_r _ _ id) by (apply list_lookup_insert_eq; lia).
      rewrite (take_S_r _ _ id Hid), take_insert_ge by lia.
      rewrite Htake. reflexivity.
Qed.

Lemma ownedBy_length (s : State) (account : Z) :
  Inv s -> Z.of_nat (length (ownedBy account s)) <= totalSupply s.
Proof.
  intros HI.
  assert (ownedBy account s ⊆+ _allTokens (token s)) as Hsub.
  { apply NoDup_submseteq; [apply (inv_nodup _ HI)|].
    intros id Hin. apply (inv_index _ HI) in Hin.
    rewrite (inv_ids _ HI). apply elem_of_seqZ.
    assert (1 <= id <= totalSupply s) by (apply (inv_owned _ HI); eauto). lia. }
  apply submseteq_length in Hsub. unfold totalSupply. lia.
Qed.

Lemma walletOfOwner_enumeration (s : State) (account : Z) :
  Inv s -> walletOfOwner account s = Ok (ownedBy account s).
Proof.
  intros HI. unfold walletOfOwner, balanceOf. rewrite Nat2Z.id.
  apply (wallet_loop_fills account s _ 0).
  - pose proof (ownedBy_length s account HI).
    pose proof (inv_supply _ HI). pose proof (inv_cap _ HI). lia.
  - apply length_replicate.
  - reflexivity.
  - reflexivity.
Qed.

Lemma ownedBy_fresh (s : State) (account : Z) :
  Inv s -> totalSupply s = 0 -> ownedBy account s = [].
Proof.
  intros HI Hzero. pose proof (ownedBy_length s account HI) as Hlen.
  destruct (ownedBy account s); [reflexivity | simpl in Hlen; lia].
Qed.

(** C9: in every reachable state [walletOfOwner(account)] returns, and
    returns as many ids as the account's [balanceOf]; position [i] of the
    result is [tokenOfOwnerByIndex(account, i)]; the ids returned are
    exactly the ids whose owner is [account], each once.  After a mint of 3
    tokens into a ledger that has issued none, the minter's wallet is
    [1, 2, 3] in this order.  The function maps the state to a value and
    has no effect on the state. *)
Theorem C9_walletOfOwner (s s' : State) (account : address) (env : Env) :
  reachable s ->
  (exists tokenIds,
     walletOfOwner account s = Ok tokenIds /\
     Z.of_nat (length tokenIds) = balanceOf account s /\
     (forall i id, tokenIds !! i = Some id ->
        tokenOfOwnerByIndex account (Z.of_nat i) s = Ok id) /\
     (forall id, id ∈ tokenIds <-> ownerOf id s = Some account) /\
     NoDup tokenIds) /\
  (totalSupply s = 0 -> mint env 3 s = Ok s' ->
     walletOfOwner (msg_sender env) s' = Ok [1; 2; 3]).
Proof.
  intros Hr. pose proof (reachable_Inv s Hr) as HI. split.
  - exists (ownedBy account s).
    split; [apply walletOfOwner_enumeration, HI|].
    split; [reflexivity|].
    split; [intros i id; apply tokenOfOwnerByIndex_lookup|].
    split; [apply (inv_index _ HI) | apply (inv_nodup _ HI)].
  - intros Hzero H.
    rewrite walletOfOwner_enumeration by (eapply Inv_mint; eassumption).
    rewrite (mint_ownedBy _ _ _ _ (msg_sender env) H).
    rewrite bool_decide_eq_true_2 by reflexivity.
    rewrite (ownedBy_fresh s _ HI Hzero), Hzero. reflexivity.
Qed.

Lemma C9_walletOfOwner_witness :
  let env := call_env minter (ether 30) ALLOW_MINTING_ON in
  let s' := post (mint env 3 deployed) deployed in
  mint env 3 deployed = Ok s' /\
  walletOfOwner minter s' = Ok [1; 2; 3] /\
  exists tokenIds, walletOfOwner deployer deployed = Ok tokenIds.
Proof.
  intros env s'.
  assert (mint env 3 deployed = Ok s') as H by (vm_compute; reflexivity).
  destruct (C9_walletOfOwner deployed s' deployer env reachable_deployed)
    as ((tokenIds & H1 & _) & H2).
  split; [exact H|].
  split; [apply H2; [reflexivity | exact H]|].
  exists tokenIds. exact H1.
Defined.

(** * Further properties of the contract *)

(** ** What a call leaves alone *)

Lemma sumZ_app (l k : list Z) : sumZ (l ++ k) = sumZ l + sumZ k.
Proof. unfold sumZ. induction l as [|x l IH]; simpl; lia. Qed.

Lemma run_app (cs cs' : list Call) (s : State) :
  run (cs ++ cs') s = run cs' (run cs s).
Proof. unfold run. apply foldl_app. Qed.

(** The effect of each call on every field, by cases on its outcome. *)
Lemma step_cases (c : Call) (s : State) :
  (exists e, execute c s = Revert e /\ step c s = s) \/
  (exists env q s', c = CallMint env q /\ mint env q s = Ok s' /\ step c s = s' /\
     s' = emit (Mint q (msg_sender env))
            (set_token (token s') (set_balance (balance s + msg_value env) s))) \/
  (exists env, c = CallWithdraw env true /\ msg_sender env = _owner s /\
     step c s = emit (Withdraw (balance s) (msg_sender env))
                  (record_sent (msg_sender env) (balance s)
                     (set_balance (balance s - balance s) s))) \/
  (exists env n, c = CallSetCost env n /\ msg_sender env = _owner s /\
     step c s = set_cost n s).
Proof.
  unfold step. destruct (execute c s) as [s'|e] eqn:E; [|left; eauto].
  right. destruct c as [env q|env accepted|env n]; simpl in E.
  - left. exists env, q, s'. repeat split; try assumption.
    apply mint_frame. exact E.
  - right. left. apply withdraw_Ok in E as (Hown & -> & ->).
    exists env. auto.
  - right. right. apply setCost_Ok in E as (Hown & ->).
    exists env, n. auto.
Qed.

Lemma step_totalSupply (c : Call) (s : State) :
  totalSupply s <= totalSupply (step c s).
Proof.
  destruct (step_cases c s) as [(e & _ & ->) | [(env & q & s' & -> & H & -> & _)
    | [(env & -> & _ & ->) | (env & n & -> & _ & ->)]]]; try reflexivity.
  pose proof (mint_Ok _ _ _ _ H) as (_ & Hq & _).
  rewrite (mint_totalSupply _ _ _ _ H). lia.
Qed.

Lemma run_totalSupply (cs : list Call) (s : State) :
  totalSupply s <= totalSupply (run cs s).
Proof.
  revert s. induction cs as [|c cs IH]; intros s; simpl; [reflexivity|].
  etransitivity; [apply (step_totalSupply c)|apply IH].
Qed.

Lemma step_ownerOf (c : Call) (s : State) (id a : Z) :
  ownerOf id s = Some a -> ownerOf id (step c s) = Some a.
Proof.
  intros Hown.
  destruct (step_cases c s) as [(e & _ & ->) | [(env & q & s' & -> & H & -> & _)
    | [(env & -> & _ & ->) | (env & n & -> & _ & ->)]]]; try exact Hown.
  rewrite (mint_ownerOf _ _ _ _ id H). case_bool_decide as Hnew; [|exact Hown].
  rewrite (mint_fresh _ _ _ _ id H Hnew) in Hown. discriminate.
Qed.

Lemma step_uri_parts (c : Call) (s : State) :
  baseURI (step c s) = baseURI s /\ baseExtension (step c s) = baseExtension s.
Proof.
  destruct (step_cases c s) as [(e & _ & ->) | [(env & q & s' & -> & H & -> & Hs')
    | [(env & -> & _ & ->) | (env & n & -> & _ & ->)]]]; try (split; reflexivity).
  rewrite Hs'. split; reflexivity.
Qed.

(** ** When [mint] returns *)




(** ** Funds *)

Lemma step_funds (c : Call) (s : State) :
  balance (step c s) + total_sent (step c s)
    = balance s + total_sent s + received [c] s.
Proof.
  cbn [received].
  destruct (step_cases c s) as [(e & He & ->) | [(env & q & s' & -> & H & -> & Hs')
    | [(env & -> & Hown & Hs') | (env & n & -> & Hown & Hs')]]].
  - destruct c; try lia. rewrite He. lia.
  - cbn [execute]. rewrite H. rewrite Hs' at 1 2. unfold total_sent. simpl. lia.
  - rewrite Hs'. unfold total_sent. simpl.
    rewrite fmap_app, sumZ_app. simpl. lia.
  - rewrite Hs'. unfold total_sent. simpl. lia.
Qed.

(** X3: over any sequence of calls the contract balance plus everything
    the contract has sent out grows by exactly the values of the mint calls
    that returned; from deployment on, the balance is what successful mints
    paid in minus what was withdrawn. *)
Theorem X3_funds_conserved (cs : list Call) (s : State) :
  balance (run cs s) + total_sent (run cs s)
    = balance s + total_sent s + received cs s /\
  forall deployer' _name _symbol _cost _maxSupply _allowMintingOn _baseURI,
    s = constructor deployer' _name _symbol _cost _maxSupply _allowMintingOn _baseURI ->
    balance (run cs s) = received cs s - total_sent (run cs s).
Proof.
  assert (forall s0, balance (run cs s0) + total_sent (run cs s0)
                     = balance s0 + total_sent s0 + received cs s0) as Hgen.
  { induction cs as [|c cs IH]; intros s0.
    - simpl. lia.
    - change (run (c :: cs) s0) with (run cs (step c s0)).
      rewrite IH, step_funds. simpl. lia. }
  split; [apply Hgen|].
  intros ? ? ? ? ? ? ? ->. specialize (Hgen (constructor deployer' _name _symbol
    _cost _maxSupply _allowMintingOn _baseURI)).
  unfold total_sent at 2 in Hgen. simpl in Hgen. lia.
Qed.

Lemma X3_funds_conserved_witness :
  let cs := [CallMint (call_env minter (ether 30) ALLOW_MINTING_ON) 3;
             CallMint (call_env minter (ether 1) ALLOW_MINTING_ON) 1;
             CallWithdraw (call_env deployer 0 ALLOW_MINTING_ON) true;
             CallMint (call_env minter (ether 25) ALLOW_MINTING_ON) 2] in
  received cs deployed = ether 55 /\
  total_sent (run cs deployed) = ether 30 /\
  balance (run cs deployed) = received cs deployed - total_sent (run cs deployed).
Proof.
  intros cs. split; [vm_compute; reflexivity|]. split; [vm_compute; reflexivity|].
  destruct (X3_funds_conserved cs deployed) as [_ H].
  apply (H deployer "Dapp Punks" "DP" COST MAX_SUPPLY ALLOW_MINTING_ON BASE_URI).
  reflexivity.
Defined.

(** X4: every transfer the contract has ever made went to the owner. *)
Theorem X4_only_owner_is_paid (s : State) (to amount : Z) :
  reachable s ->
  (to, amount) ∈ sent s ->
  to = _owner s.
Proof.
  intros Hr. revert to amount. induction Hr as [|c s Hr IH]; intros to amount Hin.
  - simpl in Hin. inversion Hin.
  - destruct (step_config c s) as (_ & _ & ->).
    destruct (step_cases c s) as [(e & _ & Hs') | [(env & q & s' & -> & H & Hs1 & Hs')
      | [(env & -> & Hown & Hs') | (env & n & -> & Hown & Hs')]]].
    + rewrite Hs' in Hin. eauto.
    + rewrite Hs1, Hs' in Hin. simpl in Hin. eauto.
    + rewrite Hs' in Hin. simpl in Hin. apply elem_of_app in Hin as [Hin|Hin].
      * eauto.
      * apply list_elem_of_singleton in Hin. injection Hin as -> _. exact Hown.
    + rewrite Hs' in Hin. simpl in Hin. eauto.
Qed.

Lemma X4_only_owner_is_paid_witness :
  let s := run [CallMint (call_env minter COST ALLOW_MINTING_ON) 1;
                CallWithdraw (call_env deployer 0 ALLOW_MINTING_ON) true] deployed in
  (deployer, COST) ∈ sent s /\ deployer = _owner s.
Proof.
  intros s.
  assert ((deployer, COST) ∈ sent s) as Hin by (vm_compute; apply list_elem_of_here).
  split; [exact Hin|].
  apply (X4_only_owner_is_paid s deployer COST); [|exact Hin].
  apply (reachable_run _ deployed reachable_deployed).
Defined.

(** X5: as long as no [setCost] call is made, the contract has taken in
    at least [cost] wei for every token issued. *)
Theorem X5_revenue_at_constant_cost (cs : list Call) (s : State) :
  Forall (fun c => is_setCost c = false) cs ->
  cost s * totalSupply s <= balance s + total_sent s ->
  cost (run cs s) = cost s /\
  cost s * totalSupply (run cs s) <= balance (run cs s) + total_sent (run cs s).
Proof.
  revert s. induction cs as [|c cs IH]; intros s Hcs Hinv; [auto|].
  apply Forall_cons in Hcs as [Hc Hcs].
  change (run (c :: cs) s) with (run cs (step c s)).
  assert (cost (step c s) = cost s /\
          cost s * totalSupply (step c s)
            <= balance (step c s) + total_sent (step c s)) as [Hcost Hstep].
  { destruct (step_cases c s) as [(e & _ & ->) | [(env & q & s' & -> & H & -> & Hs')
      | [(env & -> & Hown & ->) | (env & n & -> & Hown & Hs')]]].
    - auto.
    - pose proof (mint_Ok _ _ _ _ H) as (_ & _ & _ & Hpay & _).
      pose proof (mint_totalSupply _ _ _ _ H) as Htot.
      split; [rewrite Hs'; reflexivity|].
      rewrite Htot. rewrite Hs' at 1 2. unfold total_sent in *. simpl. lia.
    - split; [reflexivity|]. unfold total_sent in *. simpl.
      rewrite fmap_app, sumZ_app. simpl.
      change (totalSupply (emit _ _)) with (totalSupply s). lia.
    - discriminate. }
  destruct (IH (step c s) Hcs) as [IHcost IHrev].
  - rewrite Hcost. exact Hstep.
  - rewrite IHcost, Hcost. split; [reflexivity|]. rewrite <- Hcost. exact IHrev.
Qed.

Lemma X5_revenue_at_constant_cost_witness :
  let cs := [CallMint (call_env minter (ether 30) ALLOW_MINTING_ON) 3;
             CallWithdraw (call_env deployer 0 ALLOW_MINTING_ON) true;
             CallMint (call_env minter (ether 25) ALLOW_MINTING_ON) 2] in
  totalSupply (run cs deployed) = 5 /\
  COST * totalSupply (run cs deployed)
    <= balance (run cs deployed) + total_sent (run cs deployed).
Proof.
  intros cs. split; [vm_compute; reflexivity|].
  apply (X5_revenue_at_constant_cost cs deployed).
  - repeat constructor.
  - apply Z.leb_le; vm_compute; reflexivity.
Defined.

(** X13: a [withdraw] call without value by the owner whose transfer is
    accepted never reverts, whatever the balance; made twice in a row, the
    second call transfers 0 wei and emits [Withdraw(0, owner)]. *)
Theorem X13_withdraw_twice (env env' : Env) (s : State) :
  msg_value env = 0 ->
  msg_value env' = 0 ->
  msg_sender env = _owner s ->
  msg_sender env' = _owner s ->
  exists s1 s2,
    withdraw env true s = Ok s1 /\
    withdraw env' true s1 = Ok s2 /\
    balance s2 = 0 /\
    sent s2 = sent s ++ [(_owner s, balance s); (_owner s, 0)] /\
    events s2
      = events s ++ [Withdraw (balance s) (_owner s); Withdraw 0 (_owner s)].
Proof.
  intros Hval Hval' Hown Hown'.
  rewrite (withdraw_no_value env true s Hval).
  rewrite (onlyOwner_owner env s) by exact Hown. cbn [require mbind Result_bind].
  eexists. eexists. split; [reflexivity|].
  rewrite (withdraw_no_value env' true _ Hval').
  rewrite onlyOwner_owner by exact Hown'. cbn [require mbind Result_bind].
  split; [reflexivity|]. simpl. rewrite Hown, Hown', <- !app_assoc.
  simpl. rewrite !Z.sub_diag. auto.
Qed.

Lemma X13_withdraw_twice_witness :
  let s := step (CallMint (call_env minter COST ALLOW_MINTING_ON) 1) deployed in
  exists s1 s2,
    withdraw (call_env deployer 0 ALLOW_MINTING_ON) true s = Ok s1 /\
    withdraw (call_env deployer 0 ALLOW_MINTING_ON) true s1 = Ok s2 /\
    sent s2 = [(deployer, COST); (deployer, 0)].
Proof.
  intros s.
  destruct (X13_withdraw_twice (call_env deployer 0 ALLOW_MINTING_ON)
              (call_env deployer 0 ALLOW_MINTING_ON) s eq_refl eq_refl eq_refl eq_refl)
    as (s1 & s2 & H1 & H2 & _ & H3 & _).
  exists s1, s2. split; [exact H1|]. split; [exact H2 | exact H3].
Defined.

(** ** Tokens, once issued *)

Lemma run_ownerOf (cs : list Call) (s : State) (id a : Z) :
  ownerOf id s = Some a -> ownerOf id (run cs s) = Some a.
Proof.
  revert s. induction cs as [|c cs IH]; intros s H; [exact H|].
  apply (IH (step c s)). apply step_ownerOf. exact H.
Qed.

Lemma run_uri_parts (cs : list Call) (s : State) :
  baseURI (run cs s) = baseURI s /\ baseExtension (run cs s) = baseExtension s.
Proof.
  revert s. induction cs as [|c cs IH]; intros s; [split; reflexivity|].
  change (run (c :: cs) s) with (run cs (step c s)).
  destruct (IH (step c s)) as [-> ->]. apply step_uri_parts.
Qed.

(** X6: none of [mint], [withdraw] and [setCost] takes a token from its
    owner: a token owned by an account before a sequence of such calls is
    owned by the same account after it. *)
Theorem X6_owner_kept (cs : list Call) (s : State) (id : Z) (a : address) :
  ownerOf id s = Some a ->
  ownerOf id (run cs s) = Some a.
Proof.
  revert s. induction cs as [|c cs IH]; intros s Hown.
  - exact Hown.
  - change (run (c :: cs) s) with (run cs (step c s)).
    apply IH. apply step_ownerOf. exact Hown.
Qed.

Lemma X6_owner_kept_witness :
  let s := step (CallMint (call_env minter COST ALLOW_MINTING_ON) 1) deployed in
  let cs := [CallMint (call_env deployer (ether 20) ALLOW_MINTING_ON) 2;
             CallSetCost (call_env deployer 0 ALLOW_MINTING_ON) 0;
             CallWithdraw (call_env deployer 0 ALLOW_MINTING_ON) true] in
  ownerOf 1 s = Some minter /\ ownerOf 1 (run cs s) = Some minter /\
  ownerOf 2 (run cs s) = Some deployer.
Proof.
  intros s cs.
  assert (ownerOf 1 s = Some minter) as H by (vm_compute; reflexivity).
  split; [exact H|]. split; [|vm_compute; reflexivity].
  apply (X6_owner_kept cs s 1 minter H).
Defined.

(** X7: the metadata URI of a token never changes: once [tokenURI(id)]
    returns a string, it returns the same string after any sequence of
    [mint], [withdraw] and [setCost] calls. *)
Theorem X7_tokenURI_stable (cs : list Call) (s : State) (id : Z) (uri : string) :
  tokenURI id s = Ok uri ->
  tokenURI id (run cs s) = Ok uri.
Proof.
  rewrite !tokenURI_cases. destruct (run_uri_parts cs s) as [-> ->].
  destruct (_exists id s) eqn:E; [|discriminate]. intros H.
  unfold _exists in *. apply bool_decide_eq_true in E as [a Ha].
  change (_owners (token s) !! id) with (ownerOf id s) in Ha.
  change (_owners (token (run cs s)) !! id) with (ownerOf id (run cs s)).
  rewrite (run_ownerOf cs s id a Ha).
  rewrite bool_decide_eq_true_2 by eauto. exact H.
Qed.

Lemma X7_tokenURI_stable_witness :
  let s := step (CallMint (call_env minter COST ALLOW_MINTING_ON) 1) deployed in
  let cs := [CallMint (call_env deployer (ether 20) ALLOW_MINTING_ON) 2;
             CallSetCost (call_env deployer 0 ALLOW_MINTING_ON) 0] in
  tokenURI 1 (run cs s)
    = Ok "ipfs://QmQ2jnDYecFhrf3asEWjyjZRX1pZSsNWG3qHzmNDvXa9qg/1.json".
Proof.
  intros s cs. apply (X7_tokenURI_stable cs s 1). vm_compute; reflexivity.
Defined.

(** ** Sold out *)

(** X12: once [totalSupply] has reached [maxSupply], every later mint
    call reverts, whatever calls were made in between: no call raises the
    cap or lowers the supply. *)
Theorem X12_sold_out_is_final (cs : list Call) (s : State) (env : Env) (q : Z) :
  reachable s ->
  totalSupply s = maxSupply s ->
  totalSupply (run cs s) = maxSupply (run cs s) /\
  exists e, mint env q (run cs s) = Revert e.
Proof.
  intros Hr Hfull.
  pose proof (reachable_Inv _ (reachable_run cs s Hr)) as HI.
  pose proof (inv_supply _ HI) as Hle.
  pose proof (run_totalSupply cs s) as Hmono.
  destruct (run_config cs s) as (_ & Hcap & _).
  assert (totalSupply (run cs s) = maxSupply (run cs s)) as Heq by lia.
  split; [exact Heq|].
  destruct (mint env q (run cs s)) as [s'|e] eqn:E; [|eauto].
  apply mint_Ok in E as (_ & Hq & _ & _ & _ & Hroom & _). lia.
Qed.

Lemma X12_sold_out_is_final_witness :
  let s := step (CallMint (call_env minter (ether 250) ALLOW_MINTING_ON) 25) deployed in
  let cs := [CallSetCost (call_env deployer 0 ALLOW_MINTING_ON) 0;
             CallWithdraw (call_env deployer 0 ALLOW_MINTING_ON) true] in
  totalSupply s = 25 /\
  exists e, mint (call_env minter (ether 10) 5000) 1 (run cs s) = Revert e.
Proof.
  intros s cs. split; [vm_compute; reflexivity|].
  apply (X12_sold_out_is_final cs s (call_env minter (ether 10) 5000) 1).
  - apply reachable_step, reachable_deployed.
  - vm_compute; reflexivity.
Defined.

(** ** Distinct tokens, distinct URIs *)

Lemma string_app_length (a b : string) :
  String.length (a +:+ b) = (String.length a + String.length b)%nat.
Proof. induction a as [|c a IH]; simpl; [reflexivity | rewrite IH; reflexivity]. Qed.

Lemma string_app_inv_tail (a b x : string) : a +:+ x = b +:+ x -> a = b.
Proof.
  revert b. induction a as [|c a IH]; intros [|c' b] H.
  - reflexivity.
  - apply (f_equal String.length) in H.
    rewrite !string_app_length in H. simpl in H. lia.
  - apply (f_equal String.length) in H.
    rewrite !string_app_length in H. simpl in H. lia.
  - change (String c (a +:+ x) = String c' (b +:+ x)) in H.
    injection H as -> H. f_equal. apply IH. exact H.
Qed.

Lemma toString_inj (i j : Z) :
  0 <= i -> 0 <= j -> Strings.toString i = Strings.toString j -> i = j.
Proof.
  intros Hi Hj H. apply (f_equal Strings.parseDecimal) in H.
  rewrite !toString_parseDecimal in H by assumption. congruence.
Qed.

(** X8: in a reachable state two tokens with the same metadata URI are the
    same token. *)
Theorem X8_tokenURI_injective (s : State) (i j : Z) (uri : string) :
  reachable s ->
  tokenURI i s = Ok uri ->
  tokenURI j s = Ok uri ->
  i = j.
Proof.
  intros Hr. pose proof (reachable_Inv s Hr) as HI.
  rewrite !tokenURI_cases.
  destruct (_exists i s) eqn:Ei; [|discriminate].
  destruct (_exists j s) eqn:Ej; [|discriminate].
  apply (exists_issued s i HI) in Ei. apply (exists_issued s j HI) in Ej.
  intros [= <-] [= H].
  apply (inj (String.app (baseURI s))) in H.
  apply string_app_inv_tail in H.
  symmetry. apply toString_inj; [lia | lia | exact H].
Qed.

Lemma X8_tokenURI_injective_witness :
  let s := step (CallMint (call_env minter (ether 30) ALLOW_MINTING_ON) 3) deployed in
  tokenURI 2 s = Ok "ipfs://QmQ2jnDYecFhrf3asEWjyjZRX1pZSsNWG3qHzmNDvXa9qg/2.json" /\
  forall j, tokenURI j s = tokenURI 2 s -> 2 = j.
Proof.
  intros s.
  assert (tokenURI 2 s
          = Ok "ipfs://QmQ2jnDYecFhrf3asEWjyjZRX1pZSsNWG3qHzmNDvXa9qg/2.json") as H
    by (vm_compute; reflexivity).
  split; [exact H|]. intros j Hj. rewrite H in Hj.
  apply (X8_tokenURI_injective s 2 j _ (reachable_step _ _ reachable_deployed) H Hj).
Defined.

(** ** The event log *)

(** X9: the event log accounts for the ledger: in every reachable state
    the amounts of the [Mint] events add up to [totalSupply] and the
    amounts of the [Withdraw] events add up to the wei sent out. *)
Theorem X9_events_account (s : State) :
  reachable s ->
  sumZ (minted_by_event <$> events s) = totalSupply s /\
  sumZ (withdrawn_by_event <$> events s) = total_sent s.
Proof.
  induction 1 as [|c s Hr [IHm IHw]]; [split; reflexivity|].
  destruct (step_cases c s) as [(e & _ & ->) | [(env & q & s' & -> & H & -> & Hs')
    | [(env & -> & Hown & ->) | (env & n & -> & Hown & ->)]]].
  - auto.
  - rewrite (mint_totalSupply _ _ _ _ H). rewrite Hs' at 1 2 3.
    unfold total_sent in *. simpl. rewrite !fmap_app, !sumZ_app. simpl. lia.
  - unfold total_sent in *. simpl. rewrite !fmap_app, !sumZ_app. simpl.
    change (totalSupply (emit _ _)) with (totalSupply s). lia.
  - auto.
Qed.

Lemma X9_events_account_witness :
  let s := run [CallMint (call_env minter (ether 30) ALLOW_MINTING_ON) 3;
                CallWithdraw (call_env deployer 0 ALLOW_MINTING_ON) true;
                CallMint (call_env minter (ether 25) 2000) 2] deployed in
  events s = [Mint 3 minter; Withdraw (ether 30) deployer; Mint 2 minter] /\
  sumZ (minted_by_event <$> events s) = totalSupply s /\
  sumZ (withdrawn_by_event <$> events s) = total_sent s.
Proof.
  intros s. split; [vm_compute; reflexivity|].
  apply (X9_events_account s). apply (reachable_run _ deployed reachable_deployed).
Defined.

(** ** Who can change what *)

(** X10: a call changes [cost] only if it is a [setCost] sent by the
    owner, changes the token collection only if it is a [mint], and lowers
    the contract balance only if it is a [withdraw] sent by the owner. *)
Theorem X10_who_changes_what (c : Call) (s : State) :
  0 <= call_value c ->
  (cost (step c s) <> cost s ->
     exists env n, c = CallSetCost env n /\ msg_sender env = _owner s) /\
  (token (step c s) <> token s -> exists env q, c = CallMint env q) /\
  (balance (step c s) < balance s ->
     exists env, c = CallWithdraw env true /\ msg_sender env = _owner s).
Proof.
  intros Hval.
  destruct (step_cases c s) as [(e & _ & ->) | [(env & q & s' & -> & H & -> & Hs')
    | [(env & -> & Hown & ->) | (env & n & -> & Hown & ->)]]].
  - repeat split; intros Hne; exfalso; [congruence | congruence | lia].
  - split; [|split].
    + intros Hne. exfalso. apply Hne. rewrite Hs'. reflexivity.
    + intros _. eauto.
    + intros Hlt. exfalso. rewrite Hs' in Hlt. simpl in Hlt, Hval. lia.
  - split; [|split].
    + intros Hne. exfalso. apply Hne. reflexivity.
    + intros Hne. exfalso. apply Hne. reflexivity.
    + intros _. eauto.
  - split; [|split].
    + intros _. eauto.
    + intros Hne. exfalso. apply Hne. reflexivity.
    + intros Hlt. exfalso. simpl in Hlt. lia.
Qed.

Lemma X10_who_changes_what_witness :
  let c := CallSetCost (call_env deployer 0 ALLOW_MINTING_ON) 5 in
  cost (step c deployed) = 5 /\
  exists env n, c = CallSetCost env n /\ msg_sender env = _owner deployed.
Proof.
  intros c. split; [vm_compute; reflexivity|].
  destruct (X10_who_changes_what c deployed) as (H & _).
  - vm_compute; discriminate.
  - apply H. vm_compute. discriminate.
Defined.

(** ** Wallets grow by minting *)

(** X11: a mint of [q] tokens appends the new ids to the end of the
    minter's wallet, so [walletOfOwner] returns the old wallet followed by
    [totalSupply + 1 .. totalSupply + q] and the minter's [balanceOf] grows
    by [q]; every other account's wallet is unchanged. *)
Theorem X11_wallet_after_mint (env : Env) (q : Z) (s s' : State) :
  reachable s ->
  mint env q s = Ok s' ->
  (exists before,
     walletOfOwner (msg_sender env) s = Ok before /\
     walletOfOwner (msg_sender env) s'
       = Ok (before ++ seqZ (totalSupply s + 1) q)) /\
  balanceOf (msg_sender env) s' = balanceOf (msg_sender env) s + q /\
  (forall a, a <> msg_sender env -> walletOfOwner a s' = walletOfOwner a s).
Proof.
  intros Hr H. pose proof (reachable_Inv s Hr) as HI.
  pose proof (Inv_mint _ _ _ _ HI H) as HI'.
  pose proof (mint_Ok _ _ _ _ H) as (_ & Hq & _).
  pose proof (mint_ownedBy _ _ _ _ (msg_sender env) H) as Hmine.
  rewrite bool_decide_eq_true_2 in Hmine by reflexivity.
  split; [|split].
  - exists (ownedBy (msg_sender env) s).
    rewrite !walletOfOwner_enumeration by assumption. rewrite Hmine. auto.
  - unfold balanceOf. rewrite Hmine, length_app, length_seqZ. lia.
  - intros a Ha. rewrite !walletOfOwner_enumeration by assumption.
    rewrite (mint_ownedBy _ _ _ _ a H).
    rewrite bool_decide_eq_false_2 by exact Ha. reflexivity.
Qed.

Lemma X11_wallet_after_mint_witness :
  let s := step (CallMint (call_env minter (ether 20) ALLOW_MINTING_ON) 2) deployed in
  let env := call_env deployer (ether 10) ALLOW_MINTING_ON in
  let s' := post (mint env 1 s) s in
  walletOfOwner deployer s' = Ok [3] /\
  walletOfOwner minter s' = Ok [1; 2] /\
  balanceOf deployer s' = 1.
Proof.
  intros s env s'.
  assert (mint env 1 s = Ok s') as H by (vm_compute; reflexivity).
  destruct (X11_wallet_after_mint env 1 s s' (reachable_step _ _ reachable_deployed) H)
    as ((before & H1 & H2) & H3 & H4).
  split; [vm_compute; reflexivity|].
  split; [rewrite (H4 minter) by (vm_compute; discriminate); vm_compute; reflexivity|].
  exact H3.
Defined.

(** * The deployment script and the front end *)

(** ** Decimal digits *)

Lemma JS_toString_decimal (n : Z) : 0 <= n -> JS.toString n = Strings.toString n.
Proof. intros Hn. destruct n as [|p|p]; [reflexivity | reflexivity | lia]. Qed.

Lemma to_uint_app_value (d d' : Decimal.uint) :
  N.of_uint (Decimal.app d d')
    = (N.of_uint d * 10 ^ DecimalPos.Unsigned.usize d' + N.of_uint d')%N.
Proof.
  unfold N.of_uint. rewrite !DecimalPos.Unsigned.of_uint_alt.
  assert (Decimal.rev (Decimal.app d d')
          = Decimal.revapp d' (Decimal.rev d)) as ->.
  { apply DecimalFacts.to_list_inj.
    rewrite DecimalFacts.rev_spec, DecimalFacts.app_spec.
    rewrite DecimalFacts.revapp_spec, DecimalFacts.rev_spec.
    rewrite List.rev_append_rev, List.rev_app_distr. reflexivity. }
  rewrite DecimalPos.Unsigned.of_lu_revapp. lia.
Qed.

Lemma digit_usize (k : N) :
  (k < 10)%N -> DecimalPos.Unsigned.usize (N.to_uint k) = 1%N.
Proof.
  intros H. destruct k as [|p]; [reflexivity|].
  do 4 (destruct p as [p|p|]; try lia; try reflexivity).
Qed.

Lemma digit_nb_digits (k : N) :
  (k < 10)%N -> Decimal.nb_digits (N.to_uint k) = 1%nat.
Proof.
  intros H. destruct k as [|p]; [reflexivity|].
  do 4 (destruct p as [p|p|]; try lia; try reflexivity).
Qed.

(** The decimal numeral of a positive number starts with a digit other
    than 0. *)
Lemma to_uint_head (m : N) :
  (1 <= m)%N ->
  exists h t, DecimalFacts.to_list (N.to_uint m) = h :: t /\ h <> DecimalFacts.d0.
Proof.
  intros Hm. destruct m as [|p]; [lia|]. simpl.
  pose proof (DecimalPos.Unsigned.to_of (Pos.to_uint p)) as Hnorm.
  rewrite DecimalPos.Unsigned.of_to in Hnorm. simpl in Hnorm.
  pose proof (DecimalPos.Unsigned.to_uint_nonzero p) as Hnz.
  assert (Decimal.nzhead (Pos.to_uint p) <> Decimal.Nil) as Hhead.
  { intros Hnil. apply Hnz. rewrite Hnorm. apply DecimalFacts.unorm_0. exact Hnil. }
  rewrite (DecimalFacts.unorm_nzhead _ Hhead) in Hnorm.
  pose proof (DecimalFacts.nzhead_nonzero (Pos.to_uint p)) as Hd0.
  rewrite <- Hnorm in Hd0, Hhead.
  destruct (Pos.to_uint p) as [|u|u|u|u|u|u|u|u|u|u]; simpl;
    try (eexists; eexists; split; [reflexivity | discriminate]).
  - congruence.
  - exfalso. apply (Hd0 u). reflexivity.
Qed.

Lemma app_normal (u d' : Decimal.uint) (h : DecimalFacts.digits)
    (t : list DecimalFacts.digits) :
  DecimalFacts.to_list u = h :: t -> h <> DecimalFacts.d0 ->
  Decimal.unorm (Decimal.app u d') = Decimal.app u d'.
Proof.
  intros Hu Hh. apply DecimalFacts.to_list_inj.
  rewrite DecimalFacts.unorm_spec, DecimalFacts.app_spec, Hu.
  unfold DecimalFacts.lunorm. rewrite <- List.app_comm_cons.
  rewrite DecimalFacts.lnzhead_head_nd0 by exact Hh. reflexivity.
Qed.

(** The numeral of [n >= 10] is the numeral of [n / 10] followed by the
    digit [n mod 10]. *)
Lemma to_uint_snoc (n : N) :
  (10 <= n)%N ->
  N.to_uint n = Decimal.app (N.to_uint (n / 10)) (N.to_uint (n mod 10)).
Proof.
  intros Hn.
  assert (n mod 10 < 10)%N as Hk by (apply N.mod_lt; lia).
  assert (1 <= n / 10)%N as Hm by (apply N.div_le_lower_bound; lia).
  destruct (to_uint_head _ Hm) as (h & t & Hlist & Hh).
  rewrite <- (app_normal _ (N.to_uint (n mod 10)) _ _ Hlist Hh).
  rewrite <- DecimalN.Unsigned.to_of. f_equal.
  rewrite to_uint_app_value, !DecimalN.Unsigned.of_to, (digit_usize _ Hk).
  rewrite N.pow_1_r. rewrite (N.div_mod n 10) at 1 by lia. lia.
Qed.

Lemma string_of_list_app (l l' : list DecimalFacts.digits) :
  NilEmpty.string_of_uint (DecimalFacts.of_list (l ++ l'))
    = NilEmpty.string_of_uint (DecimalFacts.of_list l)
      +:+ NilEmpty.string_of_uint (DecimalFacts.of_list l').
Proof.
  induction l as [|h l IH]; [reflexivity|].
  destruct h; simpl; rewrite IH; reflexivity.
Qed.

Lemma string_of_uint_app (d d' : Decimal.uint) :
  NilEmpty.string_of_uint (Decimal.app d d')
    = NilEmpty.string_of_uint d +:+ NilEmpty.string_of_uint d'.
Proof.
  rewrite <- (DecimalFacts.of_list_to_list (Decimal.app d d')), DecimalFacts.app_spec.
  rewrite string_of_list_app, !DecimalFacts.of_list_to_list. reflexivity.
Qed.

Lemma string_of_uint_length (d : Decimal.uint) :
  String.length (NilEmpty.string_of_uint d) = Decimal.nb_digits d.
Proof. induction d; simpl; congruence. Qed.

Lemma NilZero_NilEmpty (d : Decimal.uint) :
  d <> Decimal.Nil -> NilZero.string_of_uint d = NilEmpty.string_of_uint d.
Proof. destruct d; [congruence | reflexivity..]. Qed.

Lemma to_uint_nonnil (n : N) : N.to_uint n <> Decimal.Nil.
Proof.
  destruct n as [|p]; [discriminate|]. apply DecimalPos.Unsigned.to_uint_nonnil.
Qed.

Lemma toString_NilEmpty (n : Z) :
  Strings.toString n = NilEmpty.string_of_uint (N.to_uint (Z.to_N n)).
Proof. apply NilZero_NilEmpty, to_uint_nonnil. Qed.

(** The decimal text of [n >= 10] is that of [n / 10] followed by that of
    the digit [n mod 10]. *)
Lemma toString_snoc (n : Z) :
  10 <= n ->
  Strings.toString n = Strings.toString (n / 10) +:+ Strings.toString (n mod 10).
Proof.
  intros Hn. rewrite !toString_NilEmpty.
  rewrite Z2N.inj_div, Z2N.inj_mod by lia. change (Z.to_N 10) with 10%N.
  rewrite (to_uint_snoc (Z.to_N n)) by lia. apply string_of_uint_app.
Qed.

Lemma toString_digit_length (k : Z) :
  0 <= k < 10 -> String.length (Strings.toString k) = 1%nat.
Proof.
  intros Hk. rewrite toString_NilEmpty, string_of_uint_length.
  apply digit_nb_digits. lia.
Qed.

(** A number with [k + 1] decimal digits has a text of [k + 1] characters. *)
Lemma toString_length (k : nat) (n : Z) :
  10 ^ Z.of_nat k <= n < 10 ^ (Z.of_nat k + 1) ->
  String.length (Strings.toString n) = S k.
Proof.
  revert n. induction k as [|k IH]; intros n Hn.
  - apply toString_digit_length. simpl in Hn. lia.
  - assert (0 < 10 ^ Z.of_nat k) as Hpos by (apply Z.pow_pos_nonneg; lia).
    assert (10 ^ (Z.of_nat k + 1) = 10 * 10 ^ Z.of_nat k) as Hk1
      by (rewrite Z.pow_add_r by lia; lia).
    assert (10 ^ Z.of_nat (S k) = 10 * 10 ^ Z.of_nat k) as HSk
      by (rewrite Nat2Z.inj_succ, Z.pow_succ_r by lia; reflexivity).
    assert (10 ^ (Z.of_nat (S k) + 1) = 10 * (10 * 10 ^ Z.of_nat k)) as HSk1
      by (rewrite Z.pow_add_r, HSk by lia; lia).
    rewrite HSk, HSk1 in Hn.
    rewrite toString_snoc by lia.
    rewrite string_app_length.
    rewrite (toString_digit_length (n mod 10)) by (apply Z.mod_pos_bound; lia).
    rewrite IH; [lia|].
    rewrite Hk1. split.
    + apply Z.div_le_lower_bound; lia.
    + apply Z.div_lt_upper_bound; lia.
Qed.

(** ** Substrings *)

Lemma substring_0_all (s : string) (m : nat) :
  (String.length s <= m)%nat -> String.substring 0 m s = s.
Proof.
  revert m. induction s as [|c s IH]; intros [|m] H; simpl in *;
    try reflexivity; try lia.
  rewrite IH by lia. reflexivity.
Qed.

Lemma substring_0_app (p r : string) (m : nat) :
  (m <= String.length p)%nat ->
  String.substring 0 m (p +:+ r) = String.substring 0 m p.
Proof.
  revert p. induction m as [|m IH]; intros [|c p] H; simpl in *;
    try reflexivity; try lia.
  - destruct r; reflexivity.
  - rewrite IH by lia. reflexivity.
Qed.

Lemma substring_skip (p r : string) (m : nat) :
  String.substring (String.length p) m (p +:+ r) = String.substring 0 m r.
Proof. induction p as [|c p IH]; simpl; [reflexivity | exact IH]. Qed.

Lemma substring_length (s : string) (n m : nat) :
  String.length (String.substring n m s) = Nat.min m (String.length s - n).
Proof.
  revert n m. induction s as [|c s IH]; intros [|n] [|m]; simpl;
    try reflexivity; try (rewrite IH; simpl; lia).
Qed.

(** [s.slice(0, k)] keeps the first [k] code units, all of [s] when it has
    fewer. *)
Lemma slice_prefix (s : string) (k : Z) :
  0 <= k ->
  JS.slice s 0 (Some k)
    = String.substring 0 (Nat.min (Z.to_nat k) (String.length s)) s.
Proof.
  intros Hk. unfold JS.slice. cbn [Z.ltb Z.compare].
  rewrite (proj2 (Z.ltb_ge k 0)) by lia.
  rewrite (Z.min_l 0) by lia.
  destruct (Z.leb_spec (Z.min k (Z.of_nat (String.length s))) 0) as [Hle|Hgt].
  - replace (Nat.min (Z.to_nat k) (String.length s)) with 0%nat by lia.
    destruct s; reflexivity.
  - rewrite Z.sub_0_r. f_equal. lia.
Qed.

(** [s.slice(-k)] keeps the last [k] code units, all of [s] when it has
    fewer. *)
Lemma slice_suffix (s : string) (k : Z) :
  0 < k ->
  JS.slice s (- k) None
    = String.substring (String.length s - Z.to_nat k)
        (Nat.min (Z.to_nat k) (String.length s)) s.
Proof.
  intros Hk. unfold JS.slice.
  rewrite (proj2 (Z.ltb_lt (- k) 0)) by lia.
  destruct (Z.leb_spec (Z.of_nat (String.length s))
              (Z.max (Z.of_nat (String.length s) + - k) 0)) as [Hle|Hgt].
  - assert (String.length s = 0%nat) as Hlen by lia.
    destruct s; [|discriminate]. simpl. destruct (Z.to_nat k); reflexivity.
  - f_equal; lia.
Qed.

Lemma string_app_assoc (a b c : string) : (a +:+ b) +:+ c = a +:+ (b +:+ c).
Proof.
  induction a as [|x a IH]; [reflexivity|].
  change (String x ((a +:+ b) +:+ c) = String x (a +:+ (b +:+ c))).
  f_equal. exact IH.
Qed.

Lemma slice_last4 (s : string) :
  JS.slice s (-4) None
    = String.substring (String.length s - 4) (Nat.min 4 (String.length s)) s.
Proof. exact (slice_suffix s 4 eq_refl). Qed.

Lemma truncateAddress_nonempty (a : string) :
  a <> "" ->
  truncateAddress (Some a)
    = JS.slice a 0 (Some 6) +:+ "..." +:+ JS.slice a (-4) None.
Proof. destruct a; [congruence | reflexivity]. Qed.

(** ** The wallet address in the navigation bar *)

(** X14: for an address made of 6 code units, any middle part and 4 final
    code units, [truncateAddress] returns the first 6, three dots and the
    last 4: a text of 13 code units. *)
Theorem X14_truncateAddress_shape (p m q : string) :
  String.length p = 6%nat ->
  String.length q = 4%nat ->
  truncateAddress (Some (p +:+ m +:+ q)) = p +:+ "..." +:+ q /\
  String.length (truncateAddress (Some (p +:+ m +:+ q))) = 13%nat.
Proof.
  intros Hp Hq.
  assert (truncateAddress (Some (p +:+ m +:+ q)) = p +:+ "..." +:+ q) as H.
  { rewrite truncateAddress_nonempty by (destruct p; [discriminate | discriminate]).
    rewrite slice_prefix by lia. rewrite slice_last4.
    rewrite !string_app_length, Hp, Hq.
    replace (Nat.min (Z.to_nat 6) (6 + (String.length m + 4))) with 6%nat by lia.
    replace (Nat.min 4 (6 + (String.length m + 4))) with 4%nat by lia.
    rewrite substring_0_app by lia. rewrite substring_0_all by lia.
    rewrite <- (string_app_assoc p m q).
    replace (6 + (String.length m + 4) - 4)%nat with (String.length (p +:+ m))
      by (rewrite string_app_length; lia).
    rewrite substring_skip, substring_0_all by lia. reflexivity. }
  split; [exact H|]. rewrite H, !string_app_length, Hp, Hq. reflexivity.
Qed.

Lemma X14_truncateAddress_shape_witness :
  truncateAddress (Some "0xf39Fd6e51aad88F6F4ce6aB8827279cffFb92266")
    = "0xf39F...2266".
Proof.
  apply (X14_truncateAddress_shape "0xf39F" "d6e51aad88F6F4ce6aB8827279cffFb9" "2266");
    reflexivity.
Defined.

(** X15: [truncateAddress] of a non-empty text of [n] code units has
    [min 6 n + 3 + min 4 n] code units, so it is shorter than its argument
    only when [n > 13]; a text of at most 4 code units comes back twice,
    around the dots. *)
Theorem X15_truncateAddress_length (a : string) :
  a <> "" ->
  String.length (truncateAddress (Some a))
    = (Nat.min 6 (String.length a) + 3 + Nat.min 4 (String.length a))%nat /\
  ((String.length (truncateAddress (Some a)) < String.length a)%nat
     <-> (13 < String.length a)%nat) /\
  ((String.length a <= 4)%nat -> truncateAddress (Some a) = a +:+ "..." +:+ a).
Proof.
  intros Ha. rewrite truncateAddress_nonempty by exact Ha.
  rewrite slice_prefix by lia. rewrite slice_last4.
  assert (String.length
            (String.substring 0 (Nat.min (Z.to_nat 6) (String.length a)) a
             +:+ "..."
             +:+ String.substring (String.length a - 4)
                   (Nat.min 4 (String.length a)) a)
          = (Nat.min 6 (String.length a) + 3 + Nat.min 4 (String.length a))%nat)
    as Hlen.
  { rewrite !string_app_length, !substring_length. simpl String.length. lia. }
  split; [exact Hlen|]. split; [rewrite Hlen; lia|].
  intros Hshort.
  replace (String.length a - 4)%nat with 0%nat by lia.
  rewrite !substring_0_all by lia. reflexivity.
Qed.

Lemma X15_truncateAddress_length_witness :
  truncateAddress (Some "0x1") = "0x1...0x1" /\
  String.length (truncateAddress (Some "0x12345678")) = 13%nat /\
  truncateAddress None = "" /\ truncateAddress (Some "") = "".
Proof.
  split.
  { apply (X15_truncateAddress_length "0x1"); [discriminate | simpl; lia]. }
  split; [|split; reflexivity].
  destruct (X15_truncateAddress_length "0x12345678") as [H _]; [discriminate|].
  exact H.
Defined.

(** ** Milliseconds and seconds *)

(** The first 10 characters of the decimal text of a number with [10 + j]
    digits are the text of the number divided by [10^j]. *)
Lemma slice_leading_digits (j : nat) (n : Z) :
  10 ^ (9 + Z.of_nat j) <= n < 10 ^ (10 + Z.of_nat j) ->
  JS.slice (Strings.toString n) 0 (Some 10)
    = Strings.toString (n / 10 ^ Z.of_nat j).
Proof.
  revert n. induction j as [|j IH]; intros n Hn.
  - change (Z.of_nat 0) with 0 in *. rewrite Z.add_0_r in Hn.
    rewrite Z.pow_0_r, Z.div_1_r. rewrite slice_prefix by lia.
    rewrite (toString_length 9 n) by exact Hn.
    apply substring_0_all. rewrite (toString_length 9 n) by exact Hn. lia.
  - assert (0 < 10 ^ (9 + Z.of_nat j)) as Hpos by (apply Z.pow_pos_nonneg; lia).
    assert (10 ^ (9 + Z.of_nat (S j)) = 10 * 10 ^ (9 + Z.of_nat j)) as H9.
    { replace (9 + Z.of_nat (S j)) with (Z.succ (9 + Z.of_nat j)) by lia.
      rewrite Z.pow_succ_r by lia. reflexivity. }
    assert (10 ^ (10 + Z.of_nat j) = 10 * 10 ^ (9 + Z.of_nat j)) as H10.
    { replace (10 + Z.of_nat j) with (Z.succ (9 + Z.of_nat j)) by lia.
      rewrite Z.pow_succ_r by lia. reflexivity. }
    assert (10 ^ (10 + Z.of_nat (S j)) = 10 * (10 * 10 ^ (9 + Z.of_nat j))) as H11.
    { replace (10 + Z.of_nat (S j)) with (Z.succ (Z.succ (9 + Z.of_nat j))) by lia.
      rewrite !Z.pow_succ_r by lia. reflexivity. }
    rewrite H9, H11 in Hn.
    assert (10 ^ (9 + Z.of_nat j) <= n / 10 < 10 ^ (10 + Z.of_nat j)) as Hdiv.
    { rewrite H10. split.
      - apply Z.div_le_lower_bound; lia.
      - apply Z.div_lt_upper_bound; lia. }
    rewrite toString_snoc by lia.
    assert (String.length (Strings.toString (n / 10)) = (10 + j)%nat) as Hlen.
    { apply (toString_length (9 + j)).
      rewrite Nat2Z.inj_add. change (Z.of_nat 9) with 9.
      replace (9 + Z.of_nat j + 1) with (10 + Z.of_nat j) by lia. exact Hdiv. }
    rewrite slice_prefix by lia. rewrite string_app_length, Hlen.
    replace (Nat.min (Z.to_nat 10)
               (10 + j + String.length (Strings.toString (n mod 10))))
      with (Nat.min (Z.to_nat 10) (String.length (Strings.toString (n / 10))))
      by (rewrite Hlen; lia).
    rewrite substring_0_app by lia.
    rewrite <- slice_prefix by lia. rewrite (IH _ Hdiv).
    rewrite Z.div_div by lia. f_equal. f_equal.
    rewrite Nat2Z.inj_succ, Z.pow_succ_r by lia. reflexivity.
Qed.

(** A number below [10^(k+1)] has a text of at most [k + 1] characters. *)
Lemma toString_length_le (k : nat) (n : Z) :
  0 <= n < 10 ^ (Z.of_nat k + 1) ->
  (String.length (Strings.toString n) <= S k)%nat.
Proof.
  revert n. induction k as [|k IH]; intros n Hn.
  - rewrite toString_digit_length by (simpl in Hn; lia). lia.
  - destruct (Z.lt_ge_cases n 10) as [Hsmall|Hbig].
    + rewrite toString_digit_length by lia. lia.
    + assert (0 < 10 ^ (Z.of_nat k + 1)) as Hpos by (apply Z.pow_pos_nonneg; lia).
      assert (10 ^ (Z.of_nat (S k) + 1) = 10 * 10 ^ (Z.of_nat k + 1)) as HS.
      { replace (Z.of_nat (S k) + 1) with (Z.succ (Z.of_nat k + 1)) by lia.
        rewrite Z.pow_succ_r by lia. reflexivity. }
      rewrite HS in Hn. rewrite toString_snoc by lia.
      rewrite string_app_length.
      rewrite (toString_digit_length (n mod 10)) by (apply Z.mod_pos_bound; lia).
      assert (String.length (Strings.toString (n / 10)) <= S k)%nat; [|lia].
      apply IH. split.
      * apply Z.div_pos; lia.
      * apply Z.div_lt_upper_bound; lia.
Qed.

Lemma mint_date_text (now : Z) :
  10 ^ 12 <= now + 60000 < 10 ^ 13 ->
  NFT_MINT_DATE now = Strings.toString ((now + 60000) / 1000).
Proof.
  intros Hn. unfold NFT_MINT_DATE. rewrite JS_toString_decimal by lia.
  rewrite (slice_leading_digits 3) by exact Hn. reflexivity.
Qed.

(** X16: run at a time whose millisecond timestamp plus 60000 has 13
    digits (from September 2001 to the year 2286), the deployment script
    computes as mint date the decimal text of the whole second of
    [Date.now() + 60000]: minting opens more than 59 and at most 60 seconds
    after the script ran. *)
Theorem X16_mint_date_seconds (now : Z) :
  10 ^ 12 <= now + 60000 < 10 ^ 13 ->
  NFT_MINT_DATE now = JS.toString ((now + 60000) / 1000) /\
  Strings.parseDecimal (NFT_MINT_DATE now) = Some ((now + 60000) / 1000) /\
  now + 59000 < 1000 * ((now + 60000) / 1000) <= now + 60000.
Proof.
  intros Hn.
  assert (0 <= (now + 60000) / 1000) as Hsec by (apply Z.div_pos; lia).
  rewrite (mint_date_text now Hn), JS_toString_decimal by exact Hsec.
  split; [reflexivity|]. split; [apply toString_parseDecimal; exact Hsec|].
  pose proof (Z.div_mod (now + 60000) 1000 ltac:(lia)).
  pose proof (Z.mod_pos_bound (now + 60000) 1000 ltac:(lia)). lia.
Qed.

Lemma X16_mint_date_seconds_witness :
  NFT_MINT_DATE 1700000000123 = "1700000060".
Proof.
  destruct (X16_mint_date_seconds 1700000000123) as [H _].
  - split; [apply Z.leb_le | apply Z.ltb_lt]; vm_compute; reflexivity.
  - exact H.
Defined.

(** X17: the script keeps the 10 leading digits whatever the length of the
    timestamp: with [10 + j] digits (and within the integers a [Number]
    holds exactly) the mint date is [Date.now() + 60000] divided by [10^j],
    and a timestamp of at most 10 digits is taken as it is; only for 13
    digits is the result in seconds. *)
Theorem X17_mint_date_digits (j : nat) (now : Z) :
  (10 ^ (9 + Z.of_nat j) <= now + 60000 < 10 ^ (10 + Z.of_nat j) ->
   now + 60000 < 2 ^ 53 ->
     NFT_MINT_DATE now = JS.toString ((now + 60000) / 10 ^ Z.of_nat j)) /\
  (0 <= now + 60000 < 10 ^ 10 ->
     NFT_MINT_DATE now = JS.toString (now + 60000)).
Proof.
  unfold NFT_MINT_DATE. split.
  - intros Hn _.
    assert (0 < 10 ^ (9 + Z.of_nat j)) as Hpos by (apply Z.pow_pos_nonneg; lia).
    assert (0 < 10 ^ Z.of_nat j) as Hj by (apply Z.pow_pos_nonneg; lia).
    rewrite !JS_toString_decimal by (try apply Z.div_pos; lia).
    apply slice_leading_digits. exact Hn.
  - intros Hn. rewrite JS_toString_decimal by lia.
    rewrite slice_prefix by lia. apply substring_0_all.
    pose proof (toString_length_le 9 (now + 60000) Hn). lia.
Qed.

Lemma X17_mint_date_digits_witness :
  NFT_MINT_DATE 10000000000000 = "1000000006" /\
  NFT_MINT_DATE 940000 = "1000000".
Proof.
  split.
  - destruct (X17_mint_date_digits 4 10000000000000) as [H _].
    apply H; [split; [apply Z.leb_le | apply Z.ltb_lt] | apply Z.ltb_lt];
      vm_compute; reflexivity.
  - destruct (X17_mint_date_digits 0 940000) as [_ H].
    apply H. split; [apply Z.leb_le | apply Z.ltb_lt]; vm_compute; reflexivity.
Defined.

Lemma toString_tenfold (a : Z) :
  1 <= a -> Strings.toString (10 * a) = Strings.toString a +:+ "0".
Proof.
  intros Ha. rewrite toString_snoc by lia.
  rewrite (Z.mul_comm 10 a), Z.div_mul, Z.mod_mul by lia. reflexivity.
Qed.

(** X18: the reveal time the front end stores is the mint time in
    milliseconds: for a mint time of at least 1 it is the decimal text of
    [allowMintingOn * 1000], for any mint time it reads as that number, and
    cutting it to 10 characters as the deployment script does gives back
    the text of a 10-digit mint time. *)
Theorem X18_revealTime_milliseconds (allowMintingOn' : Z) :
  (1 <= allowMintingOn' ->
     revealTime allowMintingOn' = JS.toString (1000 * allowMintingOn')) /\
  (0 <= allowMintingOn' ->
     Strings.parseDecimal (revealTime allowMintingOn') = Some (1000 * allowMintingOn')) /\
  (10 ^ 9 <= allowMintingOn' < 10 ^ 10 ->
     JS.slice (revealTime allowMintingOn') 0 (Some 10) = JS.toString allowMintingOn').
Proof.
  assert (1 <= allowMintingOn' ->
          revealTime allowMintingOn' = Strings.toString (1000 * allowMintingOn')) as Hms.
  { intros Ha. unfold revealTime. rewrite JS_toString_decimal by lia.
    replace (1000 * allowMintingOn') with (10 * (10 * (10 * allowMintingOn'))) by lia.
    rewrite !toString_tenfold by lia. rewrite !string_app_assoc. reflexivity. }
  split; [|split].
  - intros Ha. rewrite JS_toString_decimal by lia. apply Hms. exact Ha.
  - intros Ha. destruct (Z.lt_ge_cases allowMintingOn' 1) as [Hz|Hp].
    + replace allowMintingOn' with 0 by lia. reflexivity.
    + rewrite Hms by exact Hp. apply toString_parseDecimal. lia.
  - intros Ha. rewrite Hms, JS_toString_decimal by lia.
    rewrite (slice_leading_digits 3).
    + change (10 ^ Z.of_nat 3) with 1000.
      rewrite (Z.mul_comm 1000), Z.div_mul by lia. reflexivity.
    + change (9 + Z.of_nat 3) with 12. change (10 + Z.of_nat 3) with 13.
      change (10 ^ 12) with (1000 * 10 ^ 9). change (10 ^ 13) with (1000 * 10 ^ 10).
      lia.
Qed.

Lemma X18_revealTime_milliseconds_witness :
  revealTime 1700000060 = "1700000060000" /\
  Strings.parseDecimal (revealTime 1700000060) = Some 1700000060000 /\
  JS.slice (revealTime 1700000060) 0 (Some 10) = "1700000060".
Proof.
  destruct (X18_revealTime_milliseconds 1700000060) as (H1 & H2 & H3).
  split; [apply H1; apply Z.leb_le; vm_compute; reflexivity|].
  split; [apply H2; apply Z.leb_le; vm_compute; reflexivity|].
  apply H3. split; [apply Z.leb_le | apply Z.ltb_lt]; vm_compute; reflexivity.
Defined.

(** ** The cards of the collection *)

(** X19: the token ids the front end renders for an account, the decimal
    texts of what [walletOfOwner] returned, are pairwise distinct and as
    many as the account's [balanceOf]: every card has its own key. *)
Theorem X19_ownedNFTs_distinct (s : State) (account : address) (tokenIds : list Z) :
  reachable s ->
  walletOfOwner account s = Ok tokenIds ->
  NoDup (ownedNFTs tokenIds) /\
  Z.of_nat (length (ownedNFTs tokenIds)) = balanceOf account s.
Proof.
  intros Hr H. pose proof (reachable_Inv s Hr) as HI.
  rewrite (walletOfOwner_enumeration s account HI) in H. injection H as <-.
  unfold ownedNFTs. split; [|rewrite length_fmap; reflexivity].
  apply NoDup_fmap_2_strong; [|apply (inv_nodup _ HI)].
  assert (forall id, id ∈ ownedBy account s -> 1 <= id) as Hpos.
  { intros id Hin. apply (inv_index _ HI) in Hin.
    assert (is_Some (ownerOf id s)) as Hsome by eauto.
    apply (inv_owned _ HI) in Hsome. lia. }
  intros i j Hi Hj Heq. apply Hpos in Hi, Hj.
  rewrite !JS_toString_decimal in Heq by lia.
  apply toString_inj; [lia | lia | exact Heq].
Qed.

Lemma X19_ownedNFTs_distinct_witness :
  let s := step (CallMint (call_env minter (ether 30) ALLOW_MINTING_ON) 3) deployed in
  ownedNFTs [1; 2; 3] = ["1"; "2"; "3"] /\ NoDup (ownedNFTs [1; 2; 3]).
Proof.
  intros s. split; [reflexivity|].
  apply (X19_ownedNFTs_distinct s minter [1; 2; 3]).
  - apply reachable_step, reachable_deployed.
  - vm_compute; reflexivity.
Defined.

(** ** From the script to the time gate *)

Lemma mint_too_early_iff (env : Env) (q : Z) (s : State) :
  mint env q s = Revert MintingNotYetAllowed
    <-> block_timestamp env < allowMintingOn s.
Proof.
  split; [|apply mint_too_early].
  intros H. apply mint_Revert in H as [[_ Hearly] | [_ Hrest]]; [exact Hearly|].
  destruct Hrest as [[? _] | (_ & [[? _] | [[? _] | (_ & [[? _] | [[? _] | (_ & [?|?])]])]])];
    discriminate.
Qed.

(** X20: a contract deployed with the mint date the script computes, at a
    time whose timestamp plus 60000 has 13 digits, rejects a mint as too
    early exactly in the blocks whose timestamp (in seconds) ends at or
    before [Date.now() + 60000] milliseconds. *)
Theorem X20_script_opens_minting (now sec : Z) (env : Env) (q : Z)
    (deployer' : address) (_name _symbol : string) (_cost _maxSupply : Z)
    (_baseURI : string) :
  10 ^ 12 <= now + 60000 < 10 ^ 13 ->
  Strings.parseDecimal (NFT_MINT_DATE now) = Some sec ->
  mint env q (constructor deployer' _name _symbol _cost _maxSupply sec _baseURI)
    = Revert MintingNotYetAllowed
  <-> 1000 * (block_timestamp env + 1) <= now + 60000.
Proof.
  intros Hn Hsec.
  assert (0 <= (now + 60000) / 1000) as Hpos by (apply Z.div_pos; lia).
  rewrite (mint_date_text now Hn), toString_parseDecimal in Hsec by exact Hpos.
  injection Hsec as <-.
  rewrite mint_too_early_iff. simpl.
  pose proof (Z.div_mod (now + 60000) 1000 ltac:(lia)).
  pose proof (Z.mod_pos_bound (now + 60000) 1000 ltac:(lia)). lia.
Qed.

Lemma X20_script_opens_minting_witness :
  let s := constructor deployer "Dapp Punks" "DP" COST MAX_SUPPLY 1700000060 BASE_URI in
  mint (call_env minter COST 1700000059) 1 s = Revert MintingNotYetAllowed /\
  mint (call_env minter COST 1700000060) 1 s <> Revert MintingNotYetAllowed.
Proof.
  intros s.
  assert (10 ^ 12 <= 1700000000123 + 60000 < 10 ^ 13) as Hn
    by (split; [apply Z.leb_le | apply Z.ltb_lt]; vm_compute; reflexivity).
  assert (Strings.parseDecimal (NFT_MINT_DATE 1700000000123) = Some 1700000060)
    as Hsec by (vm_compute; reflexivity).
  split.
  - apply (X20_script_opens_minting 1700000000123 1700000060
             (call_env minter COST 1700000059) 1 deployer "Dapp Punks" "DP"
             COST MAX_SUPPLY BASE_URI Hn Hsec).
    apply Z.leb_le. vm_compute; reflexivity.
  - intros H.
    apply (X20_script_opens_minting 1700000000123 1700000060
             (call_env minter COST 1700000060) 1 deployer "Dapp Punks" "DP"
             COST MAX_SUPPLY BASE_URI Hn Hsec) in H.
    revert H. apply Z.lt_nge. vm_compute; reflexivity.
Defined.
